(** * web-gen-vis: the rope kinematics and the physics-to-audio mapping

    A shallow embedding of the script of [src/App.vue] and of the earlier
    variant of the same component that the repository also carries (embedded
    here as module [Part000]).

    The script computes on JavaScript [number]s.  The program text is
    embedded once, over an interface [Number] of the operations it uses, and
    the interface is instantiated twice:

    - [Number_binary64]: IEEE 754 binary64, the arithmetic a JavaScript engine
      runs.  Every operation is the kernel's primitive one, so a run of the
      program on concrete inputs is evaluated, NaN and infinities included.
    - [Number_R]: the real numbers, the arithmetic the geometric statements
      (distances, angles, convergence) are made in.  It agrees with the
      program wherever no rounding, overflow or division by zero occurs; in
      [R] a division by zero yields [0], so every statement over [R] that
      divides keeps its divisor away from zero.

    Calls into the host (Web Audio, canvas, DOM, frame scheduling) are
    recorded as a trace of [Call]s in program order.  A host call is taken
    to return normally; the exceptions in a trace are those the script
    itself raises (a method or property of [null], an identifier no scope
    declares, [reduce] of an empty array).  Web Audio refuses a parameter
    value that is not finite, so once a NaN has entered the state the audio
    calls of a trace are those the script attempts, not those the host
    completes. *)

From Stdlib Require Import ZArith List Bool String Lia.
From Stdlib Require Import Reals Lra Sorted.
From Stdlib Require PrimFloat Uint63 FloatOps QArith.
Import ListNotations.

(** ** The arithmetic interface *)

Class Number (N : Type) : Type := {
  (** [dec m k] is the decimal literal [m / 10^k] ([dec 13081 2] is 130.81) *)
  dec : Z -> nat -> N;
  add : N -> N -> N;
  sub : N -> N -> N;
  mul : N -> N -> N;
  div : N -> N -> N;
  (** [ltb a b] is [a < b], [leb a b] is [a <= b]; [a > b] is [ltb b a] *)
  ltb : N -> N -> bool;
  leb : N -> N -> bool;
  Math_sqrt : N -> N;
  Math_abs : N -> N;
  Math_min : N -> N -> N
}.

Declare Scope js_scope.
Delimit Scope js_scope with js.
Notation "a + b" := (add a b) : js_scope.
Notation "a - b" := (sub a b) : js_scope.
Notation "a * b" := (mul a b) : js_scope.
Notation "a / b" := (div a b) : js_scope.
Notation "a <? b" := (ltb a b) : js_scope.
Notation "a <=? b" := (leb a b) : js_scope.
Notation "a >? b" := (ltb b a) : js_scope.

(** An integer literal. *)
Definition int {N} `{Number N} (z : Z) : N := dec z 0.

(** [Math.pow] at a natural exponent, by repeated multiplication. *)
Fixpoint Math_pow {N} `{Number N} (b : N) (e : nat) : N :=
  match e with
  | O => int 1
  | S e' => mul b (Math_pow b e')
  end.

(** The trigonometric part of [Math], which only the angle needs. *)
Class Trig (N : Type) : Type := {
  Math_PI : N;
  (** [Math_atan2 y x], in the argument order of [Math.atan2] *)
  Math_atan2 : N -> N -> N
}.

(** *** Real numbers *)

Definition Rltb (a b : R) : bool := if Rlt_dec a b then true else false.
Definition Rleb (a b : R) : bool := if Rle_dec a b then true else false.

#[export] Instance Number_R : Number R := {
  dec m k := (IZR m / 10 ^ k)%R;
  add := Rplus;
  sub := Rminus;
  mul := Rmult;
  div := Rdiv;
  ltb := Rltb;
  leb := Rleb;
  Math_sqrt := sqrt;
  Math_abs := Rabs;
  Math_min := Rmin
}.

(** [Math.atan2] on real numbers, by the quadrant of [(x, y)]: the angle of
    the point [(x, y)] from the positive x axis, [0] at the origin. *)
Definition Ratan2 (y x : R) : R :=
  if Rlt_dec 0 x then atan (y / x)
  else if Rlt_dec x 0 then
    if Rle_dec 0 y then (atan (y / x) + PI)%R else (atan (y / x) - PI)%R
  else if Rlt_dec 0 y then (PI / 2)%R
  else if Rlt_dec y 0 then (- (PI / 2))%R
  else 0%R.

#[export] Instance Trig_R : Trig R := {
  Math_PI := PI;
  Math_atan2 := Ratan2
}.

(** *** IEEE 754 binary64 *)

Abbreviation float := PrimFloat.float.

Definition float_of_Z (z : Z) : float :=
  match z with
  | Z0 => PrimFloat.zero
  | Zpos _ => PrimFloat.of_uint63 (Uint63.of_Z z)
  | Zneg p => PrimFloat.opp (PrimFloat.of_uint63 (Uint63.of_Z (Zpos p)))
  end.

(** [Math.min]: NaN if either argument is NaN, and [-0] below [+0]. *)
Definition float_min (a b : float) : float :=
  if PrimFloat.is_nan a then a
  else if PrimFloat.is_nan b then b
  else if PrimFloat.ltb b a then b
  else if PrimFloat.ltb a b then a
  else if PrimFloat.get_sign a then a else b.

(** A decimal literal denotes the binary64 value nearest to it; mantissa and
    power of ten are exact below [2^53], and the division rounds once. *)
#[export] Instance Number_binary64 : Number float := {
  dec m k := PrimFloat.div (float_of_Z m) (float_of_Z (10 ^ Z.of_nat k));
  add := PrimFloat.add;
  sub := PrimFloat.sub;
  mul := PrimFloat.mul;
  div := PrimFloat.div;
  ltb := PrimFloat.ltb;
  leb := PrimFloat.leb;
  Math_sqrt := PrimFloat.sqrt;
  Math_abs := PrimFloat.abs;
  Math_min := float_min
}.

(** ** Data model *)

Record Point (N : Type) : Type := mkPoint { x : N; y : N }.

Arguments mkPoint {N} x y.
Arguments x {N} _.
Arguments y {N} _.

(** What [getBoundingClientRect] returns for the [.window] element. *)
Record DOMRect (N : Type) : Type := mkRect {
  rect_left : N;
  rect_top : N;
  rect_width : N;
  rect_height : N
}.

Arguments mkRect {N}.
Arguments rect_left {N} _.
Arguments rect_top {N} _.
Arguments rect_width {N} _.
Arguments rect_height {N} _.

(** A non-null reference to a host object. *)
Inductive handle : Type := Object.

(** The host at the time of one callback. *)
Record Env (N : Type) : Type := mkEnv {
  (** [containerCanvas.value] is non-null *)
  canvas : bool;
  (** [document.querySelector('.window')] and its bounding rectangle *)
  windowDiv : option (DOMRect N);
  (** the id the next [requestAnimationFrame] returns *)
  frameId : nat;
  (** what reading [lfoGain.gain.value] gives *)
  lfoGain_gain_value : N
}.

Arguments mkEnv {N}.
Arguments canvas {N} _.
Arguments windowDiv {N} _.
Arguments frameId {N} _.
Arguments lfoGain_gain_value {N} _.

(** Calls into the host, and an exception that leaves the callback.  The
    start-time argument of the audio-parameter calls is always
    [audioContext.currentTime] and is not recorded. *)
Inductive Call (N : Type) : Type :=
| requestAnimationFrame (id : nat)
| cancelAnimationFrame (id : nat)
| new_AudioContext
| oscillator_start
| oscillator_stop
| lfo_start
| lfo_stop
| audioContext_close
| lowpassFilter_frequency_setValueAtTime (v : N)
| lowpassFilter_Q_setValueAtTime (v : N)
| lfo_frequency_setValueAtTime (v : N)
| lfoGain_gain_setValueAtTime (v : N)
| oscillator_frequency_setTargetAtTime (target timeConstant : N)
| gainNode_gain_setTargetAtTime (target timeConstant : N)
| gainNode_gain_value_set (v : N)
| windowDiv_style_size (px : N)
| context_clearRect
| context_stroke (from to : Point N)
| context_fill_arc (centre : Point N) (radius : N)
| removeEventListener (type : string)
| Uncaught (error : string).

Arguments lowpassFilter_frequency_setValueAtTime {N} v.
Arguments lowpassFilter_Q_setValueAtTime {N} v.
Arguments lfo_frequency_setValueAtTime {N} v.
Arguments lfoGain_gain_setValueAtTime {N} v.
Arguments oscillator_frequency_setTargetAtTime {N} target timeConstant.
Arguments gainNode_gain_setTargetAtTime {N} target timeConstant.
Arguments gainNode_gain_value_set {N} v.
Arguments windowDiv_style_size {N} px.
Arguments context_stroke {N} from to.
Arguments context_fill_arc {N} centre radius.
Arguments requestAnimationFrame {N} id.
Arguments cancelAnimationFrame {N} id.
Arguments new_AudioContext {N}.
Arguments oscillator_start {N}.
Arguments oscillator_stop {N}.
Arguments lfo_start {N}.
Arguments lfo_stop {N}.
Arguments audioContext_close {N}.
Arguments context_clearRect {N}.
Arguments removeEventListener {N} type.
Arguments Uncaught {N} error.

(** The module-level variables of the script. *)
Record State (N : Type) : Type := mkState {
  isDragging : bool;
  mousePosition : Point N;
  windowCenter : Point N;
  restPosition : Point N;
  currentRopeEnd : Point N;
  animationFrameId : option nat;
  audioContext : option handle;
  oscillator : option handle;
  gainNode : option handle;
  lfo : option handle;
  lfoGain : option handle;
  lowpassFilter : option handle;
  isAudioInitialized : bool
}.

Arguments mkState {N}.
Arguments isDragging {N} _.
Arguments mousePosition {N} _.
Arguments windowCenter {N} _.
Arguments restPosition {N} _.
Arguments currentRopeEnd {N} _.
Arguments animationFrameId {N} _.
Arguments audioContext {N} _.
Arguments oscillator {N} _.
Arguments gainNode {N} _.
Arguments lfo {N} _.
Arguments lfoGain {N} _.
Arguments lowpassFilter {N} _.
Arguments isAudioInitialized {N} _.

Record MouseEvent (N : Type) : Type := mkMouseEvent { clientX : N; clientY : N }.

Arguments mkMouseEvent {N}.
Arguments clientX {N} _.
Arguments clientY {N} _.

(** ** Assignments to the module-level variables *)

Section Assign.
Context {N : Type}.

Definition set_isDragging (v : bool) (s : State N) : State N :=
  mkState v (mousePosition s) (windowCenter s) (restPosition s)
    (currentRopeEnd s) (animationFrameId s) (audioContext s) (oscillator s)
    (gainNode s) (lfo s) (lfoGain s) (lowpassFilter s) (isAudioInitialized s).

Definition set_mousePosition (v : Point N) (s : State N) : State N :=
  mkState (isDragging s) v (windowCenter s) (restPosition s)
    (currentRopeEnd s) (animationFrameId s) (audioContext s) (oscillator s)
    (gainNode s) (lfo s) (lfoGain s) (lowpassFilter s) (isAudioInitialized s).

Definition set_windowCenter (v : Point N) (s : State N) : State N :=
  mkState (isDragging s) (mousePosition s) v (restPosition s)
    (currentRopeEnd s) (animationFrameId s) (audioContext s) (oscillator s)
    (gainNode s) (lfo s) (lfoGain s) (lowpassFilter s) (isAudioInitialized s).

Definition set_restPosition (v : Point N) (s : State N) : State N :=
  mkState (isDragging s) (mousePosition s) (windowCenter s) v
    (currentRopeEnd s) (animationFrameId s) (audioContext s) (oscillator s)
    (gainNode s) (lfo s) (lfoGain s) (lowpassFilter s) (isAudioInitialized s).

Definition set_currentRopeEnd (v : Point N) (s : State N) : State N :=
  mkState (isDragging s) (mousePosition s) (windowCenter s) (restPosition s)
    v (animationFrameId s) (audioContext s) (oscillator s)
    (gainNode s) (lfo s) (lfoGain s) (lowpassFilter s) (isAudioInitialized s).

Definition set_animationFrameId (v : option nat) (s : State N) : State N :=
  mkState (isDragging s) (mousePosition s) (windowCenter s) (restPosition s)
    (currentRopeEnd s) v (audioContext s) (oscillator s)
    (gainNode s) (lfo s) (lfoGain s) (lowpassFilter s) (isAudioInitialized s).

Definition set_lowpassFilter (v : option handle) (s : State N) : State N :=
  mkState (isDragging s) (mousePosition s) (windowCenter s) (restPosition s)
    (currentRopeEnd s) (animationFrameId s) (audioContext s) (oscillator s)
    (gainNode s) (lfo s) (lfoGain s) v (isAudioInitialized s).

(** An exception left the callback. *)
Definition is_Uncaught (c : Call N) : bool :=
  match c with Uncaught _ => true | _ => false end.

Definition throws (t : list (Call N)) : bool := existsb is_Uncaught t.

(** The calls a guarded statement [if (h) { ... }] makes. *)
Definition when_set {A : Type} (h : option A) (t : list (Call N)) : list (Call N) :=
  match h with Some _ => t | None => [] end.
End Assign.

(** [Array.prototype.reduce] without an initial value: the first element
    starts the accumulation; on an empty array it throws ([None]). *)
Definition Array_reduce {A : Type} (f : A -> A -> A) (l : list A) : option A :=
  match l with
  | [] => None
  | a :: t => Some (fold_left f t a)
  end.

(** ** The functions both variants share, word for word *)

Section Shared.
Context {N : Type} `{Number N}.
Local Open Scope js_scope.

(** The values the script starts with. *)
Definition initial : State N :=
  mkState false (mkPoint (int 0) (int 0)) (mkPoint (int 0) (int 0))
    (mkPoint (int 0) (int 0)) (mkPoint (int 0) (int 0)) None
    None None None None None None false.

(** Without the [.window] element [getBoundingClientRect] is called on
    [null] and throws. *)
Definition updateWindowCenter (env : Env N) (s : State N)
  : State N * list (Call N) :=
  match windowDiv env with
  | Some rect =>
      (set_windowCenter
         (mkPoint (rect_left rect + rect_width rect / int 2)
                  (rect_top rect + rect_height rect / int 2)) s, [])
  | None => (s, [Uncaught "TypeError"])
  end.

Definition updateMousePosition (event : MouseEvent N) (s : State N) : State N :=
  set_mousePosition (mkPoint (clientX event) (clientY event)) s.

Definition handleMouseMove (event : MouseEvent N) (s : State N) : State N :=
  if isDragging s then updateMousePosition event s else s.

Definition lerp (start end_ t : N) : N := start + (end_ - start) * t.

Definition calculateRopeLength (x1 y1 x2 y2 : N) : N :=
  Math_sqrt (Math_pow (x2 - x1) 2 + Math_pow (y2 - y1) 2).

Definition calculateAngle `{Trig N} (x1 y1 x2 y2 : N) : N :=
  let dx := x2 - x1 in
  let dy := y2 - y1 in
  Math_atan2 dx dy.
End Shared.

(** ** [src/App.vue] *)

Module App.
Section Script.
Context {N : Type} `{Number N}.
Local Open Scope js_scope.

Definition PARAMETERS_minLFOFreq : N := dec 1 1.
Definition PARAMETERS_maxLFOFreq : N := int 15.
Definition PARAMETERS_lfoGain : N := int 3.
Definition PARAMETERS_minOscillatorGain : N := int 150.
Definition PARAMETERS_maxOscillatorGain : N := int 500.

(** Pentatonic scale frequencies, A2 to A5. *)
Definition PENTATONIC_FREQUENCIES : list N :=
  [ dec 1100 1; dec 13081 2; dec 14683 2; dec 16481 2;
    dec 1960 1; dec 2200 1; dec 26163 2; dec 29366 2;
    dec 32963 2; dec 3920 1; dec 4400 1; dec 52325 2;
    dec 58733 2; dec 65925 2; dec 78399 2; dec 8800 1 ].

(** The nodes are created and wired inside the host; the trace keeps the
    parameter settings and the starts. *)
Definition initAudio (s : State N) : State N * list (Call N) :=
  if negb (isAudioInitialized s) then
    (mkState (isDragging s) (mousePosition s) (windowCenter s)
       (restPosition s) (currentRopeEnd s) (animationFrameId s)
       (Some Object) (Some Object) (Some Object) (Some Object)
       (Some Object) (Some Object) true,
     [ new_AudioContext;
       lowpassFilter_frequency_setValueAtTime (int 1000);
       lowpassFilter_Q_setValueAtTime (int 10);
       lfo_frequency_setValueAtTime (int 1);
       lfoGain_gain_setValueAtTime PARAMETERS_lfoGain;
       oscillator_start;
       lfo_start;
       gainNode_gain_value_set (int 0) ])
  else (s, []).

Definition findClosestPentatonicFrequency (freq : N) : option N :=
  Array_reduce
    (fun prev curr =>
       if Math_abs (curr - freq) <? Math_abs (prev - freq) then curr else prev)
    PENTATONIC_FREQUENCIES.

(** The rectangle is fetched and not used: the radius is a constant. *)
Definition calculateRestPosition (env : Env N) (s : State N) (mouseX mouseY : N)
  : option (Point N) :=
  match windowDiv env with
  | None => None
  | Some _ =>
      let radius := int 200 / int 2 + int 20 in
      let dx := mouseX - x (windowCenter s) in
      let dy := mouseY - y (windowCenter s) in
      let distance := Math_sqrt (dx * dx + dy * dy) in
      let normalizedX := dx / distance in
      let normalizedY := dy / distance in
      Some (mkPoint (x (windowCenter s) + normalizedX * radius)
                    (y (windowCenter s) + normalizedY * radius))
  end.

Definition handleMouseDown (event : MouseEvent N) (s : State N)
  : State N * list (Call N) :=
  let dx := clientX event - x (currentRopeEnd s) in
  let dy := clientY event - y (currentRopeEnd s) in
  let distance := Math_sqrt (dx * dx + dy * dy) in
  if distance <=? int 18 then
    let (s1, t) := initAudio s in
    (updateMousePosition event (set_isDragging true s1), t)
  else (s, []).

(** The gain call reads [audioContext!.currentTime] for its start time: with
    the gain node set and no audio context the read throws, before the call
    and before the rest position is assigned. *)
Definition handleMouseUp (env : Env N) (s : State N) : State N * list (Call N) :=
  let s1 := set_isDragging false s in
  match gainNode s1, audioContext s1 with
  | Some _, None => (s1, [Uncaught "TypeError"])
  | _, _ =>
      let t := when_set (gainNode s1) [gainNode_gain_setTargetAtTime (int 0) (dec 1 1)] in
      match calculateRestPosition env s1 (x (mousePosition s1)) (y (mousePosition s1)) with
      | Some p => (set_restPosition p s1, t)
      | None => (s1, t ++ [Uncaught "TypeError"])
      end
  end.

(** The constants of [updateAudio] and [animate], as functions of what they
    are computed from. *)
Definition normalizedLength (ropeLength : N) : N :=
  Math_min ((ropeLength - int 150) / (int 500 - int 150)) (int 1).

Definition cutoffFrequency (ropeLength : N) : N :=
  let minCutoff := int 0 in
  let maxCutoff := int 5000 in
  minCutoff + normalizedLength ropeLength * (maxCutoff - minCutoff).

Definition lfoFrequency (ropeLength : N) : N :=
  let minLFOFreq := PARAMETERS_minLFOFreq in
  let maxLFOFreq := PARAMETERS_maxLFOFreq in
  let normalizedRopeLength := normalizedLength ropeLength in
  minLFOFreq + normalizedRopeLength * (maxLFOFreq - minLFOFreq).

Definition targetGain (ropeLength : N) : N :=
  let minGainDistance := PARAMETERS_minOscillatorGain in
  let maxGainDistance := PARAMETERS_maxOscillatorGain in
  if ropeLength >? minGainDistance then
    let normalizedLength :=
      Math_min ((ropeLength - minGainDistance) / (maxGainDistance - minGainDistance))
               (int 1) in
    normalizedLength * dec 4 1
  else int 0.

Definition newSize (ropeLength : N) : N :=
  let baseSize := int 200 in
  let maxSize := int 500 in
  baseSize + normalizedLength ropeLength * (maxSize - baseSize).

Section Angle.
Context `{Trig N}.

Definition normalizedAngle (angle : N) : N :=
  (angle + Math_PI) / (int 2 * Math_PI).

Definition baseFrequency (angle : N) : N :=
  int 110 + normalizedAngle angle * int 770.

Definition updateAudio (env : Env N) (s : State N) (ropeLength : N)
  : list (Call N) :=
  match oscillator s, gainNode s, audioContext s, lfo s, lfoGain s with
  | Some _, Some _, Some _, Some _, Some _ =>
      let angle :=
        calculateAngle (x (windowCenter s)) (y (windowCenter s))
                       (x (currentRopeEnd s)) (y (currentRopeEnd s)) in
      when_set (lowpassFilter s)
        [lowpassFilter_frequency_setValueAtTime (cutoffFrequency ropeLength)]
      ++ match findClosestPentatonicFrequency (baseFrequency angle) with
         | None => [Uncaught "TypeError"]
         | Some snappedFrequency =>
             [ lfo_frequency_setValueAtTime (lfoFrequency ropeLength);
               oscillator_frequency_setTargetAtTime
                 (snappedFrequency + lfoGain_gain_value env) (dec 1 1);
               gainNode_gain_setTargetAtTime (targetGain ropeLength) (dec 1 1) ]
         end
  | _, _, _, _, _ => []
  end.

(** One display frame.  Without the canvas or the [.window] element the
    frame only schedules the next one. *)
Definition animate (env : Env N) (s : State N) : State N * list (Call N) :=
  match canvas env, windowDiv env with
  | true, Some _ =>
      let lerpFactor := if isDragging s then dec 2 1 else dec 1 2 in
      let targetX := if isDragging s then x (mousePosition s) else x (restPosition s) in
      let targetY := if isDragging s then y (mousePosition s) else y (restPosition s) in
      let s1 :=
        set_currentRopeEnd
          (mkPoint (lerp (x (currentRopeEnd s)) targetX lerpFactor)
                   (lerp (y (currentRopeEnd s)) targetY lerpFactor)) s in
      let ropeLength :=
        calculateRopeLength (x (windowCenter s1)) (y (windowCenter s1))
                            (x (currentRopeEnd s1)) (y (currentRopeEnd s1)) in
      let audio := updateAudio env s1 ropeLength in
      if throws audio then (s1, context_clearRect :: audio)
      else
        (set_animationFrameId (Some (frameId env)) s1,
         context_clearRect :: audio
         ++ [ windowDiv_style_size (newSize ropeLength);
              context_stroke (windowCenter s1) (currentRopeEnd s1);
              context_fill_arc (currentRopeEnd s1) (int 18);
              requestAnimationFrame (frameId env) ])
  | _, _ =>
      (set_animationFrameId (Some (frameId env)) s,
       [requestAnimationFrame (frameId env)])
  end.
End Angle.

(** The handles stay set; only [lowpassFilter] is cleared. *)
Definition onUnmounted (s : State N) : State N * list (Call N) :=
  (set_lowpassFilter None s,
   match animationFrameId s with
   | Some id => [cancelAnimationFrame id]
   | None => []
   end
   ++ when_set (oscillator s) [oscillator_stop]
   ++ when_set (audioContext s) [audioContext_close]
   ++ when_set (lfo s) [lfo_stop]
   ++ [ removeEventListener "mousedown"; removeEventListener "mousemove";
        removeEventListener "mouseup"; removeEventListener "scroll";
        removeEventListener "resize" ]).
End Script.
End App.

(** ** The second copy of the component script (part_000)

    An earlier state of [App.vue]: no scale, no filter, a radius taken from
    the layout; [lerp], the rope geometry and the pointer handlers are those
    of [Shared]. *)

Module Part000.
Section Script.
Context {N : Type} `{Number N}.
Local Open Scope js_scope.

Definition initAudio (s : State N) : State N * list (Call N) :=
  if negb (isAudioInitialized s) then
    (mkState (isDragging s) (mousePosition s) (windowCenter s)
       (restPosition s) (currentRopeEnd s) (animationFrameId s)
       (Some Object) (Some Object) (Some Object) (Some Object)
       (Some Object) (lowpassFilter s) true,
     [ new_AudioContext;
       lfo_frequency_setValueAtTime (int 1);
       lfoGain_gain_setValueAtTime (int 50);
       oscillator_start;
       lfo_start;
       gainNode_gain_value_set (int 0) ])
  else (s, []).

Definition calculateRestPosition (env : Env N) (s : State N) (mouseX mouseY : N)
  : option (Point N) :=
  match windowDiv env with
  | None => None
  | Some rect =>
      let radius := rect_width rect / int 2 + int 20 in
      let dx := mouseX - x (windowCenter s) in
      let dy := mouseY - y (windowCenter s) in
      let distance := Math_sqrt (dx * dx + dy * dy) in
      let normalizedX := dx / distance in
      let normalizedY := dy / distance in
      Some (mkPoint (x (windowCenter s) + normalizedX * radius)
                    (y (windowCenter s) + normalizedY * radius))
  end.

(** The gain call reads [audioContext!.currentTime] for its start time: with
    the gain node set and no audio context the read throws, before the call
    and before the rest position is assigned. *)
Definition handleMouseUp (env : Env N) (s : State N) : State N * list (Call N) :=
  let s1 := set_isDragging false s in
  match gainNode s1, audioContext s1 with
  | Some _, None => (s1, [Uncaught "TypeError"])
  | _, _ =>
      let t := when_set (gainNode s1) [gainNode_gain_setTargetAtTime (int 0) (dec 1 1)] in
      match calculateRestPosition env s1 (x (mousePosition s1)) (y (mousePosition s1)) with
      | Some p => (set_restPosition p s1, t)
      | None => (s1, t ++ [Uncaught "TypeError"])
      end
  end.

Definition normalizedRopeLength (ropeLength : N) : N :=
  Math_min ((ropeLength - int 150) / (int 500 - int 150)) (int 1).

Definition lfoFrequency (ropeLength : N) : N :=
  let minLFODepth := dec 5 1 in
  let maxLFODepth := int 5 in
  minLFODepth + normalizedRopeLength ropeLength * (maxLFODepth - minLFODepth) * int 20.

Definition targetGain (ropeLength : N) : N :=
  let minGainDistance := int 150 in
  let maxGainDistance := int 500 in
  if ropeLength >? minGainDistance then
    let normalizedLength :=
      Math_min ((ropeLength - minGainDistance) / (maxGainDistance - minGainDistance))
               (int 1) in
    normalizedLength * dec 75 2
  else int 0.

Section Angle.
Context `{Trig N}.

Definition normalizedAngle (angle : N) : N :=
  (angle + Math_PI) / (int 2 * Math_PI).

Definition baseFrequency (angle : N) : N :=
  int 200 + normalizedAngle angle * int 600.

Definition updateAudio (env : Env N) (s : State N) (ropeLength : N)
  : list (Call N) :=
  match oscillator s, gainNode s, audioContext s, lfo s, lfoGain s with
  | Some _, Some _, Some _, Some _, Some _ =>
      let angle :=
        calculateAngle (x (windowCenter s)) (y (windowCenter s))
                       (x (currentRopeEnd s)) (y (currentRopeEnd s)) in
      [ lfo_frequency_setValueAtTime (lfoFrequency ropeLength);
        oscillator_frequency_setTargetAtTime
          (baseFrequency angle + lfoGain_gain_value env) (dec 1 1);
        gainNode_gain_setTargetAtTime (targetGain ropeLength) (dec 1 1) ]
  | _, _, _, _, _ => []
  end.

(** One display frame of this variant: only the canvas is waited for, the
    window is not resized and the handle is drawn with radius [10]. *)
Definition animate (env : Env N) (s : State N) : State N * list (Call N) :=
  if canvas env then
    let lerpFactor := if isDragging s then dec 2 1 else dec 1 2 in
    let targetX := if isDragging s then x (mousePosition s) else x (restPosition s) in
    let targetY := if isDragging s then y (mousePosition s) else y (restPosition s) in
    let s1 :=
      set_currentRopeEnd
        (mkPoint (lerp (x (currentRopeEnd s)) targetX lerpFactor)
                 (lerp (y (currentRopeEnd s)) targetY lerpFactor)) s in
    let ropeLength :=
      calculateRopeLength (x (windowCenter s1)) (y (windowCenter s1))
                          (x (currentRopeEnd s1)) (y (currentRopeEnd s1)) in
    (set_animationFrameId (Some (frameId env)) s1,
     context_clearRect :: updateAudio env s1 ropeLength
     ++ [ context_stroke (windowCenter s1) (currentRopeEnd s1);
          context_fill_arc (currentRopeEnd s1) (int 10);
          requestAnimationFrame (frameId env) ])
  else
    (set_animationFrameId (Some (frameId env)) s,
     [requestAnimationFrame (frameId env)]).
End Angle.

Definition handleMouseDown (event : MouseEvent N) (s : State N)
  : State N * list (Call N) :=
  let dx := clientX event - x (currentRopeEnd s) in
  let dy := clientY event - y (currentRopeEnd s) in
  let distance := Math_sqrt (dx * dx + dy * dy) in
  if distance <=? int 10 then
    let (s1, t) := initAudio s in
    (updateMousePosition event (set_isDragging true s1), t)
  else (s, []).

(** The script declares [lfo]; the teardown reads [lfoOscillator], which no
    scope declares, so evaluating the condition throws and the listeners
    stay registered. *)
Definition onUnmounted (s : State N) : State N * list (Call N) :=
  (s,
   match animationFrameId s with
   | Some id => [cancelAnimationFrame id]
   | None => []
   end
   ++ when_set (oscillator s) [oscillator_stop]
   ++ when_set (audioContext s) [audioContext_close]
   ++ [Uncaught "ReferenceError"]).
End Script.
End Part000.

(** ** Runs, and the notions the statements use *)

Section Runs.
Context {N : Type} `{Number N}.

(** The five handles [updateAudio] tests are set. *)
Definition audio_ready (s : State N) : Prop :=
  oscillator s = Some Object /\ gainNode s = Some Object /\
  audioContext s = Some Object /\ lfo s = Some Object /\ lfoGain s = Some Object.

(** The frame finds its canvas and its [.window] element. *)
Definition surfaces_ready (env : Env N) : Prop :=
  canvas env = true /\ windowDiv env <> None.

(** The state after one frame per element of [envs], in order. *)
Fixpoint ticks `{Trig N} (envs : list (Env N)) (s : State N) : State N :=
  match envs with
  | [] => s
  | env :: rest => ticks rest (fst (App.animate env s))
  end.

(** The distance from the rest position to the rope end, as the script
    measures distances. *)
Definition settle_distance (s : State N) : N :=
  calculateRopeLength (x (restPosition s)) (y (restPosition s))
                      (x (currentRopeEnd s)) (y (currentRopeEnd s)).

(** A 200 by 200 [.window] element centred on (500, 500), and the
    modulation depth read back as [depth]. *)
Definition sample_env_with (depth : N) : Env N :=
  mkEnv true (Some (mkRect (int 400) (int 400) (int 200) (int 200))) 1 depth.

Definition sample_env : Env N := sample_env_with (int 3).

(** A state before any grab: window centre [c], last pointer position [m],
    rope end [e], rest position [r]. *)
Definition idle (c m e r : Point N) : State N :=
  mkState false m c r e None None None None None None None false.

Definition at_ (a b : Z) : Point N := mkPoint (int a) (int b).

(** A state during a drag, after the first grab created the audio graph:
    window centre [c], pointer [m], rope end [e], rest position [r]. *)
Definition playing (c m e r : Point N) : State N :=
  mkState true m c r e (Some 1%nat) (Some Object) (Some Object) (Some Object)
    (Some Object) (Some Object) (Some Object) true.

(** The frequency targets a trace sends to the carrier oscillator. *)
Fixpoint oscillator_targets (t : list (Call N)) : list N :=
  match t with
  | [] => []
  | oscillator_frequency_setTargetAtTime target _ :: rest =>
      target :: oscillator_targets rest
  | _ :: rest => oscillator_targets rest
  end.

(** The calls of a trace that stop a source, close the context or cancel
    the frame. *)
Definition is_release (c : Call N) : bool :=
  match c with
  | cancelAnimationFrame _ | oscillator_stop | lfo_stop | audioContext_close => true
  | _ => false
  end.

Definition releases (t : list (Call N)) : list (Call N) := filter is_release t.
End Runs.

(** The specification's normalisation of a length: clamped at both ends. *)
Definition clamp01 (t : R) : R := Rmax 0 (Rmin t 1).

(** The callback [findClosestPentatonicFrequency] reduces with, over [R]. *)
Definition nearer (f prev curr : R) : R :=
  if Rltb (Rabs (curr - f)) (Rabs (prev - f)) then curr else prev.

(** [r] is the first element of [l] at the least distance from [f]: every
    element before it is strictly farther from [f], none after it is closer. *)
Definition first_minimiser (f : R) (l : list R) (r : R) : Prop :=
  exists before after : list R,
    l = before ++ r :: after /\
    (forall s, In s before -> (Rabs (r - f) < Rabs (s - f))%R) /\
    (forall s, In s after -> (Rabs (r - f) <= Rabs (s - f))%R).

(** ** Mounting, resizing and the dispatch of events

    Identical in both copies of the script, up to the [animate] they call. *)

(** [rect.bottom] of a rectangle of non-negative height. *)
Definition rect_bottom {N : Type} `{Number N} (r : DOMRect N) : N :=
  add (rect_top r) (rect_height r).

(** The trace of the callbacks that also size the canvas and register the
    listeners: the calls of [Call], and these two. *)
Inductive ShellCall (N : Type) : Type :=
| host (c : Call N)
| canvas_set_size
| addEventListener (type : string).

Arguments host {N} c.
Arguments canvas_set_size {N}.
Arguments addEventListener {N} type.

Inductive Event (N : Type) : Type :=
| mousedown (e : MouseEvent N)
| mousemove (e : MouseEvent N)
| mouseup
| scroll
| resize
| frame.

Arguments mousedown {N} e.
Arguments mousemove {N} e.
Arguments mouseup {N}.
Arguments scroll {N}.
Arguments resize {N}.
Arguments frame {N}.

Section Shell.
Context {N : Type} `{Number N}.
Local Open Scope js_scope.

(** The [animate] of the copy at hand. *)
Variable animate : Env N -> State N -> State N * list (Call N).

Definition onMounted (env : Env N) (s : State N)
  : State N * list (ShellCall N) :=
  let '(s1, t1) :=
    match windowDiv env, canvas env with
    | Some rect, true =>
        let (s0, t0) := updateWindowCenter env s in
        let ropeEnd :=
          mkPoint (rect_left rect + rect_width rect / int 2)
                  (rect_bottom rect + int 20) in
        (set_restPosition ropeEnd (set_currentRopeEnd ropeEnd s0),
         canvas_set_size :: map host t0)
    | _, _ => (s, [])
    end in
  let (s2, t2) := animate env s1 in
  (s2,
   t1 ++ map host t2
   ++ [ addEventListener "mousedown"; addEventListener "mousemove";
        addEventListener "mouseup"; addEventListener "scroll";
        addEventListener "resize" ]).

Definition handleResize (env : Env N) (s : State N)
  : State N * list (ShellCall N) :=
  if canvas env then
    let (s1, t1) := updateWindowCenter env s in
    (s1, canvas_set_size :: map host t1)
  else (s, []).

(** The listener [onMounted] registers for each event, and [animate] for a
    display frame. *)
Definition dispatch
    (handleMouseDown : MouseEvent N -> State N -> State N * list (Call N))
    (handleMouseUp : Env N -> State N -> State N * list (Call N))
    (env : Env N) (ev : Event N) (s : State N)
  : State N * list (ShellCall N) :=
  match ev with
  | mousedown e => let (s1, t) := handleMouseDown e s in (s1, map host t)
  | mousemove e => (handleMouseMove e s, [])
  | mouseup => let (s1, t) := handleMouseUp env s in (s1, map host t)
  | scroll => let (s1, t) := updateWindowCenter env s in (s1, map host t)
  | resize => handleResize env s
  | frame => let (s1, t) := animate env s in (s1, map host t)
  end.
End Shell.

Section ShellRuns.
Context {N : Type} `{Number N} `{Trig N}.

Definition App_dispatch : Env N -> Event N -> State N -> State N * list (ShellCall N) :=
  dispatch App.animate App.handleMouseDown App.handleMouseUp.

(** The callbacks of [App.vue] run one after the other, each in the host as
    it is at that time. *)
Fixpoint run (events : list (Env N * Event N)) (s : State N)
  : State N * list (ShellCall N) :=
  match events with
  | [] => (s, [])
  | (env, ev) :: rest =>
      let (s1, t1) := App_dispatch env ev s in
      let (s2, t2) := run rest s1 in
      (s2, t1 ++ t2)
  end.

(** A call into Web Audio. *)
Definition is_audio_call (c : ShellCall N) : bool :=
  match c with
  | host (new_AudioContext | oscillator_start | oscillator_stop | lfo_start
         | lfo_stop | audioContext_close
         | lowpassFilter_frequency_setValueAtTime _
         | lowpassFilter_Q_setValueAtTime _
         | lfo_frequency_setValueAtTime _ | lfoGain_gain_setValueAtTime _
         | oscillator_frequency_setTargetAtTime _ _
         | gainNode_gain_setTargetAtTime _ _ | gainNode_gain_value_set _) => true
  | _ => false
  end.

(** No audio handle is set and the flag is down. *)
Definition audio_off (s : State N) : Prop :=
  isAudioInitialized s = false /\ audioContext s = None /\
  oscillator s = None /\ gainNode s = None /\ lfo s = None /\
  lfoGain s = None /\ lowpassFilter s = None.

(** The flag is up and the graph of [initAudio] is in place. *)
Definition audio_on (s : State N) : Prop :=
  isAudioInitialized s = true /\ audio_ready s /\ lowpassFilter s = Some Object.

(** The distance from the pointer to the rope end, as the script measures
    distances. *)
Definition track_distance (s : State N) : N :=
  calculateRopeLength (x (mousePosition s)) (y (mousePosition s))
                      (x (currentRopeEnd s)) (y (currentRopeEnd s)).

(** A trace without a call into Web Audio. *)
Definition silent (t : list (ShellCall N)) : bool :=
  forallb (fun c => negb (is_audio_call c)) t.

Definition is_mousedown (ev : Event N) : bool :=
  match ev with mousedown _ => true | _ => false end.

(** The event types a trace registers a listener for, in order. *)
Fixpoint registered (t : list (ShellCall N)) : list string :=
  match t with
  | [] => []
  | addEventListener type :: rest => type :: registered rest
  | _ :: rest => registered rest
  end.

(** The event types a trace removes the listener of, in order. *)
Fixpoint removed (t : list (Call N)) : list string :=
  match t with
  | [] => []
  | removeEventListener type :: rest => type :: removed rest
  | _ :: rest => removed rest
  end.
End ShellRuns.

(** ** Binary64 runs measured exactly *)

(** The rational number a finite binary64 value is ([0] for the others). *)
Definition binary64_exact (f : float) : QArith_base.Q :=
  match FloatOps.Prim2SF f with
  | SpecFloat.S754_finite sign m e =>
      QArith_base.Qmult
        (QArith_base.inject_Z (if sign then Zneg m else Zpos m))
        (QArith_base.Qpower (QArith_base.inject_Z 2) e)
  | _ => QArith_base.inject_Z 0
  end.

(** The square of the distance between two binary64 points, without any
    rounding. *)
Definition exact_squared_distance (c p : Point float) : QArith_base.Q :=
  QArith_base.Qplus
    (QArith_base.Qpower
       (QArith_base.Qminus (binary64_exact (x p)) (binary64_exact (x c))) 2)
    (QArith_base.Qpower
       (QArith_base.Qminus (binary64_exact (y p)) (binary64_exact (y c))) 2).

(** Each frame of the run, one per element of [envs], leaves the computed
    distance to the rest position strictly smaller than it found it. *)
Fixpoint settling_strictly {N : Type} `{Number N} `{Trig N}
    (envs : list (Env N)) (s : State N) : bool :=
  match envs with
  | [] => true
  | env :: rest =>
      let s' := fst (App.animate env s) in
      ltb (settle_distance s') (settle_distance s) && settling_strictly rest s'
  end.

(** * Properties *)

(** ** Helpers *)

Ltac js_R :=
  cbv [add sub mul div ltb leb Math_sqrt Math_abs Math_min dec int Math_pow
       Number_R Math_PI Math_atan2 Trig_R pow] in *.

Ltac conjuncts := repeat match goal with |- _ /\ _ => split end.

Lemma Rltb_true (a b : R) : (a < b)%R -> Rltb a b = true.
Proof. intros Hab. unfold Rltb. destruct (Rlt_dec a b); [reflexivity | contradiction]. Qed.

Lemma Rltb_false (a b : R) : (b <= a)%R -> Rltb a b = false.
Proof. intros Hab. unfold Rltb. destruct (Rlt_dec a b); [lra | reflexivity]. Qed.

Lemma int_R (z : Z) : int z = IZR z.
Proof. unfold int. cbn. field. Qed.

Lemma Math_pow_R (b : R) (n : nat) : Math_pow b n = (b ^ n)%R.
Proof.
  induction n as [| n IH]; cbn [Math_pow].
  - apply int_R.
  - rewrite IH. reflexivity.
Qed.

(** ** Rope geometry *)

Lemma Ratan2_range (b a : R) : (- PI < Ratan2 b a <= PI)%R.
Proof.
  pose proof PI_RGT_0 as Hpi.
  unfold Ratan2.
  destruct (Rlt_dec 0 a) as [Hpos | Hnpos].
  - pose proof (atan_bound (b / a)) as Hb. lra.
  - destruct (Rlt_dec a 0) as [Hneg | Hnneg].
    + pose proof (atan_bound (b / a)) as Hb.
      assert (Hinv : (/ a < 0)%R) by (apply Rinv_lt_0_compat; assumption).
      destruct (Rle_dec 0 b) as [Hb0 | Hb0].
      * assert (Hq : (b / a <= 0)%R) by (unfold Rdiv; nra).
        assert (Ha : (atan (b / a) <= 0)%R).
        { destruct Hq as [Hq | Hq].
          - left. rewrite <- atan_0. apply atan_increasing. exact Hq.
          - rewrite Hq, atan_0. lra. }
        lra.
      * assert (Hq : (0 < b / a)%R) by (unfold Rdiv; nra).
        assert (Ha : (0 < atan (b / a))%R)
          by (rewrite <- atan_0; apply atan_increasing; exact Hq).
        lra.
    + destruct (Rlt_dec 0 b); [lra |].
      destruct (Rlt_dec b 0); lra.
Qed.

(** C6: [calculateRopeLength] and [calculateAngle] are functions of the two
    points alone (the square root of the sum of the squared differences, and
    [atan2] of [dx] and [dy], that is the angle from the vertical axis); for
    every pair of points the length is at least [0] and the angle lies in
    the interval from [-PI], excluded, to [PI], included. *)
Theorem rope_geometry_ranges :
  forall x1 y1 x2 y2 : R,
    calculateRopeLength x1 y1 x2 y2
      = sqrt ((x2 - x1) ^ 2 + (y2 - y1) ^ 2) /\
    calculateAngle x1 y1 x2 y2 = Ratan2 (x2 - x1) (y2 - y1) /\
    (0 <= calculateRopeLength x1 y1 x2 y2)%R /\
    (- PI < calculateAngle x1 y1 x2 y2 <= PI)%R.
Proof.
  intros x1 y1 x2 y2.
  assert (Hlen : calculateRopeLength x1 y1 x2 y2
                 = sqrt ((x2 - x1) ^ 2 + (y2 - y1) ^ 2)).
  { unfold calculateRopeLength. rewrite !Math_pow_R. reflexivity. }
  assert (Hang : calculateAngle x1 y1 x2 y2 = Ratan2 (x2 - x1) (y2 - y1))
    by reflexivity.
  conjuncts; try assumption.
  - rewrite Hlen. apply sqrt_pos.
  - rewrite Hang. apply Ratan2_range.
  - rewrite Hang. apply Ratan2_range.
Qed.

(** ** Normalised length and gain *)

Lemma normalizedLength_R (len : R) :
  App.normalizedLength len = Rmin ((len - 150) / 350) 1.
Proof. unfold App.normalizedLength. js_R. f_equal; lra. Qed.

Lemma normalizedRopeLength_R (len : R) :
  Part000.normalizedRopeLength len = Rmin ((len - 150) / 350) 1.
Proof. unfold Part000.normalizedRopeLength. js_R. f_equal; lra. Qed.

(** C2: the normalised length is [min((length - 150) / 350, 1)]: at most [1],
    equal to [1] from length [500] on, and negative, not [0], for every length
    under [150].  At length [120], where the rope rests, it is [-3/35] in both
    variants, so the modulation rate falls under [minLFOFreq], the cutoff under
    [minCutoff] and the window size under the 200 the script calls its minimum
    size; in binary64 the value is negative as well. *)
Theorem normalizedLength_not_clamped_below :
  (forall len : R, App.normalizedLength len <= 1)%R /\
  (forall len : R, 500 <= len -> App.normalizedLength len = 1)%R /\
  (forall len : R, len < 150 -> App.normalizedLength len < 0)%R /\
  App.normalizedLength (int 120 : R) = (- 3 / 35)%R /\
  Part000.normalizedRopeLength (int 120 : R) = (- 3 / 35)%R /\
  (App.lfoFrequency (int 120 : R) < App.PARAMETERS_minLFOFreq)%R /\
  (App.cutoffFrequency (int 120 : R) < 0)%R /\
  (App.newSize (int 120 : R) < 200)%R /\
  PrimFloat.ltb (App.normalizedLength (int 120 : float)) (int 0) = true /\
  PrimFloat.ltb (Part000.normalizedRopeLength (int 120 : float)) (int 0) = true.
Proof.
  assert (H120 : App.normalizedLength (int 120 : R) = (- 3 / 35)%R).
  { rewrite normalizedLength_R, int_R. unfold Rmin.
    destruct (Rle_dec ((120 - 150) / 350) 1); lra. }
  conjuncts.
  - intros len. rewrite normalizedLength_R. apply Rmin_r.
  - intros len Hlen. rewrite normalizedLength_R. apply Rmin_right. lra.
  - intros len Hlen. rewrite normalizedLength_R.
    apply Rle_lt_trans with ((len - 150) / 350)%R; [apply Rmin_l | lra].
  - exact H120.
  - rewrite normalizedRopeLength_R, <- normalizedLength_R. exact H120.
  - unfold App.lfoFrequency, App.PARAMETERS_minLFOFreq, App.PARAMETERS_maxLFOFreq.
    rewrite H120. js_R. lra.
  - unfold App.cutoffFrequency. rewrite H120. js_R. lra.
  - unfold App.newSize. rewrite H120. js_R. lra.
  - vm_compute. reflexivity.
  - vm_compute. reflexivity.
Qed.

Lemma App_targetGain_R (len : R) :
  App.targetGain len
  = if Rltb 150 len then (Rmin ((len - 150) / 350) 1 * (4 / 10))%R else 0%R.
Proof.
  unfold App.targetGain, App.PARAMETERS_minOscillatorGain,
    App.PARAMETERS_maxOscillatorGain.
  js_R. replace (150 / 1)%R with 150%R by lra.
  destruct (Rltb 150 len); [| lra].
  f_equal; [f_equal |]; lra.
Qed.

Lemma Part000_targetGain_R (len : R) :
  Part000.targetGain len
  = if Rltb 150 len then (Rmin ((len - 150) / 350) 1 * (75 / 100))%R else 0%R.
Proof.
  unfold Part000.targetGain.
  js_R. replace (150 / 1)%R with 150%R by lra.
  destruct (Rltb 150 len); [| lra].
  f_equal; [f_equal |]; lra.
Qed.

(** The gain law of both variants, for a cap between [0] and [1]. *)
Lemma gain_law [cap len g : R] :
  (0 < cap < 1)%R ->
  g = (if Rltb 150 len then (Rmin ((len - 150) / 350) 1 * cap)%R else 0%R) ->
  ((len <= 150 -> g = 0) /\
   (150 < len -> g = clamp01 ((len - 150) / (500 - 150)) * cap) /\
   0 <= g <= cap /\ g < 1)%R.
Proof.
  intros Hcap ->.
  replace (500 - 150)%R with 350%R by lra.
  pose proof (Rmin_r ((len - 150) / 350) 1) as Hle1.
  destruct (Rlt_dec 150 len) as [Hgt | Hngt].
  - rewrite Rltb_true by exact Hgt.
    assert (Hpos : (0 < Rmin ((len - 150) / 350) 1)%R)
      by (apply Rmin_glb_lt; lra).
    conjuncts; try nra.
    intros _. unfold clamp01. rewrite Rmax_right by lra. reflexivity.
  - rewrite Rltb_false by lra.
    conjuncts; lra.
Qed.

(** ** Pitch snapping *)

Ltac Rabs_lra :=
  unfold Rabs in *;
  repeat match goal with
         | |- context [Rcase_abs ?t] => destruct (Rcase_abs t)
         | H : context [Rcase_abs ?t] |- _ => destruct (Rcase_abs t)
         end;
  lra.

(** Whatever the comparison answers, a reduction that keeps either the
    accumulator or the current element returns an element of the array. *)
Lemma fold_choice_In {A : Type} (pick : A -> A -> bool) (l : list A) (a : A) :
  In (fold_left (fun prev curr => if pick prev curr then curr else prev) l a)
     (a :: l).
Proof.
  revert a. induction l as [| c l IH]; intros a.
  - left. reflexivity.
  - cbn [fold_left].
    destruct (IH (if pick a c then c else a)) as [Hhd | Htl].
    + rewrite <- Hhd. destruct (pick a c); [right; left | left]; reflexivity.
    + right. right. exact Htl.
Qed.

Lemma findClosest_member {N : Type} `{Number N} (freq : N) :
  exists r, App.findClosestPentatonicFrequency freq = Some r /\
            In r App.PENTATONIC_FREQUENCIES.
Proof.
  unfold App.findClosestPentatonicFrequency, App.PENTATONIC_FREQUENCIES.
  cbn [Array_reduce]. eexists. split; [reflexivity |].
  apply (fold_choice_In
           (fun prev curr => ltb (Math_abs (sub curr freq)) (Math_abs (sub prev freq)))).
Qed.

Lemma scale_R_bounds :
  Forall (fun r : R => 110 <= r <= 880)%R App.PENTATONIC_FREQUENCIES.
Proof.
  unfold App.PENTATONIC_FREQUENCIES. js_R.
  repeat (apply Forall_cons; [lra |]). apply Forall_nil.
Qed.

Lemma scale_binary64_bounds :
  forallb (fun r : float => PrimFloat.leb (int 110) r && PrimFloat.leb r (int 880))
          App.PENTATONIC_FREQUENCIES = true.
Proof. vm_compute. reflexivity. Qed.

(** C10: for every input, in any arithmetic, [findClosestPentatonicFrequency]
    returns an element of [PENTATONIC_FREQUENCIES]; so the snapped pitch lies
    between [110] and [880], over the reals and over binary64 alike, NaN and
    the infinities included (each of which snaps to [110]). *)
Theorem findClosest_returns_scale_member :
  (forall (N : Type) (HN : Number N) (freq : N),
      exists r, App.findClosestPentatonicFrequency freq = Some r /\
                In r App.PENTATONIC_FREQUENCIES) /\
  (forall freq : R,
      exists r, App.findClosestPentatonicFrequency freq = Some r /\
                (110 <= r <= 880)%R) /\
  (forall freq : float,
      exists r, App.findClosestPentatonicFrequency freq = Some r /\
                PrimFloat.leb (int 110) r = true /\
                PrimFloat.leb r (int 880) = true) /\
  App.findClosestPentatonicFrequency PrimFloat.nan = Some (int 110) /\
  App.findClosestPentatonicFrequency PrimFloat.infinity = Some (int 110) /\
  App.findClosestPentatonicFrequency PrimFloat.neg_infinity = Some (int 110).
Proof.
  conjuncts.
  - intros N HN freq. apply findClosest_member.
  - intros freq.
    destruct (findClosest_member freq) as (r & Hr & Hin).
    exists r. split; [exact Hr |].
    pose proof scale_R_bounds as Hall. rewrite Forall_forall in Hall.
    apply Hall. exact Hin.
  - intros freq.
    destruct (findClosest_member freq) as (r & Hr & Hin).
    exists r. split; [exact Hr |].
    pose proof scale_binary64_bounds as Hall. rewrite forallb_forall in Hall.
    apply andb_prop. apply Hall. exact Hin.
  - vm_compute. reflexivity.
  - vm_compute. reflexivity.
  - vm_compute. reflexivity.
Qed.

Lemma reduce_first_minimiser (f : R) (l : list R) (a : R) :
  first_minimiser f (a :: l) (fold_left (nearer f) l a).
Proof.
  induction l as [| c l IH] using rev_ind.
  - exists [], []. cbn. conjuncts; [reflexivity | intros s [] | intros s []].
  - rewrite fold_left_app. cbn [fold_left].
    destruct IH as (before & after & Heq & Hbefore & Hafter).
    set (r := fold_left (nearer f) l a) in *.
    unfold nearer at 1, Rltb.
    destruct (Rlt_dec (Rabs (c - f)) (Rabs (r - f))) as [Hlt | Hge].
    + exists (before ++ r :: after), []. conjuncts.
      * rewrite app_comm_cons, Heq. reflexivity.
      * intros s Hs. apply in_app_or in Hs. destruct Hs as [Hs | [Hs | Hs]].
        -- apply Rlt_trans with (Rabs (r - f)); [exact Hlt | apply Hbefore, Hs].
        -- subst s. exact Hlt.
        -- apply Rlt_le_trans with (Rabs (r - f)); [exact Hlt | apply Hafter, Hs].
      * intros s [].
    + exists before, (after ++ [c]). conjuncts.
      * rewrite app_comm_cons, Heq, <- app_assoc. reflexivity.
      * exact Hbefore.
      * intros s Hs. apply in_app_or in Hs. destruct Hs as [Hs | [Hs | []]].
        -- apply Hafter, Hs.
        -- subst s. lra.
Qed.

Lemma scale_R_increasing : StronglySorted Rlt App.PENTATONIC_FREQUENCIES.
Proof.
  unfold App.PENTATONIC_FREQUENCIES. js_R.
  repeat (apply SSorted_cons;
          [| repeat (apply Forall_cons; [lra |]); apply Forall_nil]).
  apply SSorted_nil.
Qed.

Lemma StronglySorted_after (l1 l2 : list R) (r : R) :
  StronglySorted Rlt (l1 ++ r :: l2) -> forall s, In s l2 -> (r < s)%R.
Proof.
  induction l1 as [| a l1 IH]; cbn; intros Hs s Hin.
  - inversion Hs as [| ? ? _ Hall]; subst.
    rewrite Forall_forall in Hall. apply Hall, Hin.
  - inversion Hs; subst. apply IH; assumption.
Qed.

Lemma findClosest_as_reduce (freq : R) :
  App.findClosestPentatonicFrequency freq
  = Array_reduce (nearer freq) App.PENTATONIC_FREQUENCIES.
Proof. reflexivity. Qed.

Lemma findClosest_R (freq : R) :
  exists r,
    App.findClosestPentatonicFrequency freq = Some r /\
    In r App.PENTATONIC_FREQUENCIES /\
    first_minimiser freq App.PENTATONIC_FREQUENCIES r /\
    (forall s, In s App.PENTATONIC_FREQUENCIES ->
               (Rabs (r - freq) <= Rabs (s - freq))%R) /\
    (forall s, In s App.PENTATONIC_FREQUENCIES ->
               Rabs (s - freq) = Rabs (r - freq) -> (r <= s)%R).
Proof.
  destruct (findClosest_member freq) as (r & Hr & Hin).
  assert (Hfirst : first_minimiser freq App.PENTATONIC_FREQUENCIES r).
  { rewrite findClosest_as_reduce in Hr.
    unfold App.PENTATONIC_FREQUENCIES in Hr |- *.
    cbn [Array_reduce] in Hr. injection Hr as <-.
    exact (reduce_first_minimiser freq _ _). }
  exists r. conjuncts; try assumption.
  - destruct Hfirst as (before & after & Heq & Hbefore & Hafter).
    intros s Hs. rewrite Heq in Hs. apply in_app_or in Hs.
    destruct Hs as [Hs | [Hs | Hs]].
    + left. apply Hbefore, Hs.
    + subst s. lra.
    + apply Hafter, Hs.
  - destruct Hfirst as (before & after & Heq & Hbefore & Hafter).
    intros s Hs Htie. pose proof scale_R_increasing as Hsorted.
    rewrite Heq in Hs, Hsorted. apply in_app_or in Hs.
    destruct Hs as [Hs | [Hs | Hs]].
    + specialize (Hbefore s Hs). lra.
    + subst s. lra.
    + left. apply (StronglySorted_after _ _ _ Hsorted), Hs.
Qed.

Lemma findClosest_115 :
  App.findClosestPentatonicFrequency (int 115 : R) = Some (dec 1100 1).
Proof.
  destruct (findClosest_R (int 115)) as (r & Hr & Hin & _ & Hmin & _).
  rewrite Hr. f_equal.
  assert (Href : In (dec 1100 1 : R) App.PENTATONIC_FREQUENCIES) by (left; reflexivity).
  specialize (Hmin _ Href).
  unfold App.PENTATONIC_FREQUENCIES in Hin. js_R.
  repeat (destruct Hin as [<- | Hin]; [try reflexivity; exfalso; Rabs_lra |]).
  destruct Hin.
Qed.

(** The midpoint of the first two scale members is at the same distance from
    both; the earlier, lower one is returned. *)
Lemma findClosest_tie :
  App.findClosestPentatonicFrequency (dec 120405 3 : R) = Some (dec 1100 1).
Proof.
  destruct (findClosest_R (dec 120405 3)) as (r & Hr & Hin & _ & Hmin & Hlow).
  rewrite Hr. f_equal.
  assert (Href : In (dec 1100 1 : R) App.PENTATONIC_FREQUENCIES) by (left; reflexivity).
  specialize (Hmin _ Href).
  unfold App.PENTATONIC_FREQUENCIES in Hin.
  destruct Hin as [<- | [<- | Hin]]; [reflexivity | |].
  - exfalso. specialize (Hlow _ Href). js_R.
    assert (Htie : Rabs (1100 / (10 * 1) - 120405 / (10 * (10 * (10 * 1))))
                   = Rabs (13081 / (10 * (10 * 1)) - 120405 / (10 * (10 * (10 * 1)))))
      by (clear; Rabs_lra).
    specialize (Hlow Htie). lra.
  - js_R.
    repeat (destruct Hin as [<- | Hin]; [exfalso; Rabs_lra |]).
    destruct Hin.
Qed.

(** C3: for every input frequency [findClosestPentatonicFrequency] returns a
    member of the scale whose absolute difference to the input is least over
    the whole scale; it is the first such member in iteration order, and, the
    scale being increasing, the lowest one on an exact tie.  Input [115] gives
    [110.0], over the reals and in binary64, and the midpoint [120.405] of
    [110.0] and [130.81] gives [110.0]. *)
Theorem findClosest_nearest_earliest :
  (forall freq : R,
      exists r,
        App.findClosestPentatonicFrequency freq = Some r /\
        In r App.PENTATONIC_FREQUENCIES /\
        first_minimiser freq App.PENTATONIC_FREQUENCIES r /\
        (forall s, In s App.PENTATONIC_FREQUENCIES ->
                   (Rabs (r - freq) <= Rabs (s - freq))%R) /\
        (forall s, In s App.PENTATONIC_FREQUENCIES ->
                   Rabs (s - freq) = Rabs (r - freq) -> (r <= s)%R)) /\
  In (dec 13081 2 : R) App.PENTATONIC_FREQUENCIES /\
  App.findClosestPentatonicFrequency (int 115 : R) = Some (dec 1100 1) /\
  App.findClosestPentatonicFrequency (int 115 : float) = Some (dec 1100 1) /\
  App.findClosestPentatonicFrequency (dec 120405 3 : R) = Some (dec 1100 1).
Proof.
  conjuncts.
  - exact findClosest_R.
  - right. left. reflexivity.
  - exact findClosest_115.
  - vm_compute. reflexivity.
  - exact findClosest_tie.
Qed.

(** ** What [updateAudio] sends *)

Section UpdateAudio.
Context {N : Type} `{Number N} `{Trig N}.

Lemma App_updateAudio_ready (env : Env N) (s : State N) (ropeLength : N) :
  audio_ready s ->
  exists snapped,
    App.findClosestPentatonicFrequency
      (App.baseFrequency
         (calculateAngle (x (windowCenter s)) (y (windowCenter s))
                         (x (currentRopeEnd s)) (y (currentRopeEnd s))))
    = Some snapped /\
    In snapped App.PENTATONIC_FREQUENCIES /\
    App.updateAudio env s ropeLength
    = when_set (lowpassFilter s)
        [lowpassFilter_frequency_setValueAtTime (App.cutoffFrequency ropeLength)]
      ++ [ lfo_frequency_setValueAtTime (App.lfoFrequency ropeLength);
           oscillator_frequency_setTargetAtTime
             (add snapped (lfoGain_gain_value env)) (dec 1 1);
           gainNode_gain_setTargetAtTime (App.targetGain ropeLength) (dec 1 1) ].
Proof.
  intros (Ho & Hg & Hc & Hl & Hlg).
  destruct (findClosest_member
              (App.baseFrequency
                 (calculateAngle (x (windowCenter s)) (y (windowCenter s))
                    (x (currentRopeEnd s)) (y (currentRopeEnd s)))))
    as (snapped & Hsnap & Hin).
  exists snapped. conjuncts; [exact Hsnap | exact Hin |].
  unfold App.updateAudio. rewrite Ho, Hg, Hc, Hl, Hlg, Hsnap. reflexivity.
Qed.

Lemma Part000_updateAudio_ready (env : Env N) (s : State N) (ropeLength : N) :
  audio_ready s ->
  Part000.updateAudio env s ropeLength
  = [ lfo_frequency_setValueAtTime (Part000.lfoFrequency ropeLength);
      oscillator_frequency_setTargetAtTime
        (add (Part000.baseFrequency
                (calculateAngle (x (windowCenter s)) (y (windowCenter s))
                                (x (currentRopeEnd s)) (y (currentRopeEnd s))))
             (lfoGain_gain_value env)) (dec 1 1);
      gainNode_gain_setTargetAtTime (Part000.targetGain ropeLength) (dec 1 1) ].
Proof.
  intros (Ho & Hg & Hc & Hl & Hlg).
  unfold Part000.updateAudio. rewrite Ho, Hg, Hc, Hl, Hlg. reflexivity.
Qed.

Lemma oscillator_targets_app (t u : list (Call N)) :
  oscillator_targets (t ++ u) = oscillator_targets t ++ oscillator_targets u.
Proof.
  induction t as [| c t IH]; [reflexivity |].
  destruct c; cbn; rewrite ?IH; reflexivity.
Qed.
End UpdateAudio.

(** C7: in both variants the gain target is [0] for a length of at most
    [150], and above it the normalised length clamped to [0, 1] times the
    cap, [0.4] in [App.vue] and [0.75] in the other variant; so it lies
    between [0] and the cap and stays under [1].  It is the target
    [updateAudio] sends to the gain node whenever the audio graph exists. *)
Theorem targetGain_capped :
  forall len : R,
    ((len <= 150 -> App.targetGain len = 0) /\
     (150 < len ->
      App.targetGain len = clamp01 ((len - 150) / (500 - 150)) * (4 / 10)) /\
     0 <= App.targetGain len <= 4 / 10 /\ App.targetGain len < 1)%R /\
    ((len <= 150 -> Part000.targetGain len = 0) /\
     (150 < len ->
      Part000.targetGain len = clamp01 ((len - 150) / (500 - 150)) * (75 / 100)) /\
     0 <= Part000.targetGain len <= 75 / 100 /\ Part000.targetGain len < 1)%R /\
    (forall (env : Env R) (s : State R),
        audio_ready s ->
        In (gainNode_gain_setTargetAtTime (App.targetGain len) (dec 1 1))
           (App.updateAudio env s len) /\
        In (gainNode_gain_setTargetAtTime (Part000.targetGain len) (dec 1 1))
           (Part000.updateAudio env s len)).
Proof.
  intros len.
  assert (Hcap : (0 < 4 / 10 < 1)%R) by lra.
  assert (Hcap' : (0 < 75 / 100 < 1)%R) by lra.
  split; [exact (gain_law Hcap (App_targetGain_R len)) |].
  split; [exact (gain_law Hcap' (Part000_targetGain_R len)) |].
  intros env s Hready. split.
  - destruct (App_updateAudio_ready env s len Hready) as (snapped & _ & _ & ->).
    apply in_or_app. right. right. right. left. reflexivity.
  - rewrite (Part000_updateAudio_ready env s len Hready).
    right. right. left. reflexivity.
Qed.

(** ** The carrier's frequency target *)

Lemma calculateAngle_right :
  calculateAngle (int 500 : R) (int 500) (int 700) (int 500) = (PI / 2)%R.
Proof.
  unfold calculateAngle. js_R. unfold Ratan2.
  replace (500 / 1 - 500 / 1)%R with 0%R by lra.
  destruct (Rlt_dec 0 0) as [Habs | _]; [lra |].
  destruct (Rlt_dec 0 (700 / 1 - 500 / 1)) as [_ | Hn]; [reflexivity | lra].
Qed.

Lemma Part000_baseFrequency_right :
  Part000.baseFrequency (PI / 2)%R = 650%R.
Proof.
  unfold Part000.baseFrequency, Part000.normalizedAngle. js_R.
  pose proof PI_neq0. field. assumption.
Qed.

Lemma App_baseFrequency_right :
  App.baseFrequency (PI / 2)%R = (1375 / 2)%R.
Proof.
  unfold App.baseFrequency, App.normalizedAngle. js_R.
  pose proof PI_neq0. field. assumption.
Qed.

Ltac snap_to ref :=
  match goal with
  | |- App.findClosestPentatonicFrequency ?f = Some _ =>
      let r := fresh "r" in
      let Hr := fresh "Hr" in
      let Hin := fresh "Hin" in
      let Hmin := fresh "Hmin" in
      destruct (findClosest_R f) as (r & Hr & Hin & _ & Hmin & _);
      rewrite Hr; f_equal;
      assert (Href : In (ref : R) App.PENTATONIC_FREQUENCIES)
        by (unfold App.PENTATONIC_FREQUENCIES; cbn [In];
            repeat first [left; reflexivity | right]);
      specialize (Hmin _ Href); clear Href;
      unfold App.PENTATONIC_FREQUENCIES in Hin; js_R;
      repeat (destruct Hin as [<- | Hin]; [try reflexivity; exfalso; Rabs_lra |]);
      destruct Hin
  end.

Lemma findClosest_650 :
  App.findClosestPentatonicFrequency 650%R = Some (dec 65925 2).
Proof. snap_to (dec 65925 2 : R). Qed.

Lemma findClosest_687 :
  App.findClosestPentatonicFrequency (1375 / 2)%R = Some (dec 65925 2).
Proof. snap_to (dec 65925 2 : R). Qed.

(** C4 as the code has it: while the audio graph exists, each [updateAudio] of
    [App.vue] sends the carrier one frequency target, the scale member nearest
    to the angle's base frequency plus the value read from [lfoGain.gain];
    the variant without a scale sends one target too, its unsnapped base
    frequency [200 + normalizedAngle * 600] plus that value.  Neither sends
    the pitch alone.  This holds in any arithmetic. *)
Theorem oscillator_target_adds_depth :
  forall (N : Type) (HN : Number N) (HT : Trig N)
         (env : Env N) (s : State N) (ropeLength : N),
    audio_ready s ->
    let angle :=
      calculateAngle (x (windowCenter s)) (y (windowCenter s))
                     (x (currentRopeEnd s)) (y (currentRopeEnd s)) in
    (exists snapped,
        App.findClosestPentatonicFrequency (App.baseFrequency angle) = Some snapped /\
        In snapped App.PENTATONIC_FREQUENCIES /\
        oscillator_targets (App.updateAudio env s ropeLength)
        = [add snapped (lfoGain_gain_value env)]) /\
    oscillator_targets (Part000.updateAudio env s ropeLength)
    = [add (Part000.baseFrequency angle) (lfoGain_gain_value env)].
Proof.
  intros N HN HT env s ropeLength Hready angle. split.
  - destruct (App_updateAudio_ready env s ropeLength Hready)
      as (snapped & Hsnap & Hin & Htrace).
    exists snapped. conjuncts; [exact Hsnap | exact Hin |].
    rewrite Htrace, oscillator_targets_app.
    destruct (lowpassFilter s); reflexivity.
  - rewrite (Part000_updateAudio_ready env s ropeLength Hready). reflexivity.
Qed.

(** With the rope end dragged to (700, 500) around the centre (500, 500) and
    a depth of [3], [App.vue] sends [659.25 + 3]. *)
Lemma oscillator_target_adds_depth_at_right :
  oscillator_targets
    (App.updateAudio (sample_env : Env R)
       (playing (at_ 500 500) (at_ 700 500) (at_ 700 500) (at_ 620 500))
       (int 200))
  = [(65925 / 100 + 3)%R].
Proof.
  destruct (oscillator_target_adds_depth R Number_R Trig_R sample_env
              (playing (at_ 500 500) (at_ 700 500) (at_ 700 500) (at_ 620 500))
              (int 200))
    as [(snapped & Hsnap & _ & Htargets) _].
  - unfold audio_ready, playing. cbn. conjuncts; reflexivity.
  - rewrite Htargets. f_equal.
    cbn [playing windowCenter currentRopeEnd at_ x y] in Hsnap.
    rewrite calculateAngle_right, App_baseFrequency_right, findClosest_687 in Hsnap.
    injection Hsnap as <-. cbn. js_R. lra.
Defined.

(** In the variant without a scale the same drag, with a depth of [50], sends
    [700]: the base frequency [650], which is no member of the scale, plus
    the depth.  The snapped pitch of [650] is [659.25], and [659.25 + 50] is
    another number. *)
Lemma part000_target_is_unsnapped :
  oscillator_targets
    (Part000.updateAudio (sample_env_with (int 50) : Env R)
       (playing (at_ 500 500) (at_ 700 500) (at_ 700 500) (at_ 620 500))
       (int 200))
  = [700%R] /\
  Part000.baseFrequency
    (calculateAngle (int 500 : R) (int 500) (int 700) (int 500)) = 650%R /\
  App.findClosestPentatonicFrequency 650%R = Some (dec 65925 2) /\
  (dec 65925 2 + 50 <> 700)%R /\
  ~ In 650%R App.PENTATONIC_FREQUENCIES.
Proof.
  assert (Hbase : Part000.baseFrequency
                    (calculateAngle (int 500 : R) (int 500) (int 700) (int 500))
                  = 650%R)
    by (rewrite calculateAngle_right; apply Part000_baseFrequency_right).
  conjuncts.
  - rewrite Part000_updateAudio_ready
      by (unfold audio_ready, playing; cbn; conjuncts; reflexivity).
    cbn [playing windowCenter currentRopeEnd at_ x y oscillator_targets
         sample_env_with lfoGain_gain_value].
    rewrite Hbase. f_equal. js_R. lra.
  - exact Hbase.
  - exact findClosest_650.
  - js_R. lra.
  - unfold App.PENTATONIC_FREQUENCIES. js_R. cbn [In].
    intros Hin. repeat (destruct Hin as [Hin | Hin]; [lra |]). exact Hin.
Qed.

(** ** Release: the rest position *)

Lemma calculateRopeLength_R (x1 y1 x2 y2 : R) :
  calculateRopeLength x1 y1 x2 y2 = sqrt ((x2 - x1) ^ 2 + (y2 - y1) ^ 2).
Proof. unfold calculateRopeLength. rewrite !Math_pow_R. reflexivity. Qed.

Lemma App_calculateRestPosition_R (env : Env R) (s : State R) (mx my : R) :
  windowDiv env <> None ->
  App.calculateRestPosition env s mx my
  = let dx := (mx - x (windowCenter s))%R in
    let dy := (my - y (windowCenter s))%R in
    let d := sqrt (dx * dx + dy * dy) in
    Some (mkPoint (x (windowCenter s) + dx / d * 120)%R
                  (y (windowCenter s) + dy / d * 120)%R).
Proof.
  intros Hwin. unfold App.calculateRestPosition.
  destruct (windowDiv env) as [rect |]; [| contradiction].
  js_R. cbv zeta. do 2 f_equal; f_equal; f_equal; lra.
Qed.

Lemma point_neq (p q : Point R) :
  p <> q -> (x p - x q <> 0 \/ y p - y q <> 0)%R.
Proof.
  destruct p as [px py], q as [qx qy]. cbn. intros Hneq.
  destruct (Req_dec px qx) as [Hx | Hx]; [| left; lra].
  destruct (Req_dec py qy) as [Hy | Hy]; [| right; lra].
  exfalso. apply Hneq. subst. reflexivity.
Qed.

Lemma norm_pos [dx dy : R] :
  (dx <> 0 \/ dy <> 0)%R -> (0 < sqrt (dx * dx + dy * dy))%R.
Proof. intros Hnz. apply sqrt_lt_R0. destruct Hnz; nra. Qed.

(** A vector scaled to length [radius]. *)
Lemma scaled_norm [dx dy radius : R] :
  (dx <> 0 \/ dy <> 0)%R -> (0 <= radius)%R ->
  let d := sqrt (dx * dx + dy * dy) in
  sqrt ((dx / d * radius) ^ 2 + (dy / d * radius) ^ 2) = radius.
Proof.
  intros Hnz Hrad d.
  pose proof (norm_pos Hnz) as Hd. fold d in Hd.
  assert (Hd2 : (d * d = dx * dx + dy * dy)%R) by (apply sqrt_sqrt; nra).
  replace ((dx / d * radius) ^ 2 + (dy / d * radius) ^ 2)%R
    with ((dx * dx + dy * dy) / (d * d) * (radius * radius))%R
    by (field; lra).
  rewrite <- Hd2.
  replace (d * d / (d * d) * (radius * radius))%R with (radius * radius)%R
    by (field; lra).
  apply sqrt_square. exact Hrad.
Qed.

Lemma App_handleMouseUp_completes {N : Type} `{Number N} (env : Env N) (s : State N) :
  (gainNode s <> None -> audioContext s <> None) ->
  App.handleMouseUp env s
  = match App.calculateRestPosition env (set_isDragging false s)
            (x (mousePosition s)) (y (mousePosition s)) with
    | Some p =>
        (set_restPosition p (set_isDragging false s),
         when_set (gainNode s) [gainNode_gain_setTargetAtTime (int 0) (dec 1 1)])
    | None =>
        (set_isDragging false s,
         when_set (gainNode s) [gainNode_gain_setTargetAtTime (int 0) (dec 1 1)]
         ++ [Uncaught "TypeError"])
    end.
Proof.
  intros Haudio. unfold App.handleMouseUp.
  cbn [gainNode audioContext mousePosition set_isDragging].
  destruct (gainNode s) as [g |]; [| reflexivity].
  destruct (audioContext s) as [c |]; [reflexivity |].
  exfalso. apply Haudio; [discriminate | reflexivity].
Qed.

Lemma App_handleMouseUp_throws {N : Type} `{Number N} (env : Env N) (s : State N) :
  gainNode s <> None -> audioContext s = None ->
  App.handleMouseUp env s = (set_isDragging false s, [Uncaught "TypeError"]).
Proof.
  intros Hgain Hctx. unfold App.handleMouseUp.
  cbn [gainNode audioContext set_isDragging]. rewrite Hctx.
  destruct (gainNode s); [reflexivity | contradiction].
Qed.

Lemma release_general (env : Env R) (s : State R) :
  windowDiv env <> None ->
  (gainNode s <> None -> audioContext s <> None) ->
  mousePosition s <> windowCenter s ->
  let s' := fst (App.handleMouseUp env s) in
  let c := windowCenter s in
  let p := mousePosition s in
  let r := restPosition s' in
  calculateRopeLength (x c) (y c) (x r) (y r) = 120%R /\
  (exists k : R, 0 < k /\ x r - x c = k * (x p - x c) /\
                 y r - y c = k * (y p - y c))%R /\
  isDragging s' = false.
Proof.
  intros Hwin Haudio Hneq.
  apply point_neq in Hneq.
  pose proof (norm_pos Hneq) as Hd.
  rewrite (App_handleMouseUp_completes env s Haudio).
  rewrite (App_calculateRestPosition_R _ _ _ _ Hwin).
  cbn [fst set_isDragging set_restPosition restPosition windowCenter
       mousePosition isDragging x y]. cbv zeta.
  set (dx := (x (mousePosition s) - x (windowCenter s))%R) in *.
  set (dy := (y (mousePosition s) - y (windowCenter s))%R) in *.
  set (d := sqrt (dx * dx + dy * dy)) in *.
  conjuncts.
  - rewrite calculateRopeLength_R.
    replace (x (windowCenter s) + dx / d * 120 - x (windowCenter s))%R
      with (dx / d * 120)%R by lra.
    replace (y (windowCenter s) + dy / d * 120 - y (windowCenter s))%R
      with (dy / d * 120)%R by lra.
    apply (scaled_norm (radius := 120) Hneq). lra.
  - exists (120 / d)%R. conjuncts.
    + apply Rdiv_lt_0_compat; lra.
    + field. lra.
    + field. lra.
  - reflexivity.
Qed.

Lemma release_at_600_500_R :
  restPosition
    (fst (App.handleMouseUp (sample_env : Env R)
            (idle (at_ 500 500) (at_ 600 500) (at_ 600 500) (at_ 500 620))))
  = mkPoint 620%R 500%R.
Proof.
  rewrite App_handleMouseUp_completes by (intros Hgain; exfalso; apply Hgain; reflexivity).
  rewrite App_calculateRestPosition_R by (cbn; discriminate).
  cbn [fst set_isDragging set_restPosition restPosition windowCenter
       mousePosition isDragging idle at_ x y]. cbv zeta. js_R.
  replace ((600 / 1 - 500 / 1) * (600 / 1 - 500 / 1)
           + (500 / 1 - 500 / 1) * (500 / 1 - 500 / 1))%R
    with (100 * 100)%R by lra.
  rewrite sqrt_square by lra.
  f_equal; lra.
Qed.

(** C5 as the code has it: after a release that completes (the [.window]
    element in place, and the audio context set whenever the gain node is)
    with the pointer away from the window centre, the rest position is, in
    exact arithmetic, at distance exactly [120] (the radius [200 / 2 + 20])
    from the centre, on the ray from the centre through the pointer, and
    dragging is off; a release that finds the gain node without its context
    throws and leaves the rest position alone.  Releasing at (600, 500)
    around (500, 500) gives exactly (620, 500), over the reals and in
    binary64.  In binary64 the rest position is otherwise the rounded point:
    released at (533, 577) it is within [1e-13] of the circle as the script
    measures distances. *)
Theorem release_rest_on_circle :
  (forall (env : Env R) (s : State R),
      windowDiv env <> None ->
      (gainNode s <> None -> audioContext s <> None) ->
      mousePosition s <> windowCenter s ->
      let s' := fst (App.handleMouseUp env s) in
      let c := windowCenter s in
      let p := mousePosition s in
      let r := restPosition s' in
      calculateRopeLength (x c) (y c) (x r) (y r) = 120%R /\
      (exists k : R, 0 < k /\ x r - x c = k * (x p - x c) /\
                     y r - y c = k * (y p - y c))%R /\
      isDragging s' = false) /\
  (forall (env : Env R) (s : State R),
      gainNode s <> None -> audioContext s = None ->
      throws (snd (App.handleMouseUp env s)) = true /\
      restPosition (fst (App.handleMouseUp env s)) = restPosition s /\
      isDragging (fst (App.handleMouseUp env s)) = false) /\
  restPosition
    (fst (App.handleMouseUp (sample_env : Env R)
            (idle (at_ 500 500) (at_ 600 500) (at_ 600 500) (at_ 500 620))))
  = mkPoint 620%R 500%R /\
  restPosition
    (fst (App.handleMouseUp (sample_env : Env float)
            (idle (at_ 500 500) (at_ 600 500) (at_ 600 500) (at_ 500 620))))
  = at_ 620 500 /\
  (let r :=
     restPosition
       (fst (App.handleMouseUp (sample_env : Env float)
               (idle (at_ 500 500) (at_ 533 577) (at_ 533 577) (at_ 500 620)))) in
   let d := calculateRopeLength (int 500) (int 500) (x r) (y r) in
   PrimFloat.ltb (PrimFloat.abs (PrimFloat.sub d (int 120))) (dec 1 13) = true).
Proof.
  conjuncts.
  - exact release_general.
  - intros env s Hgain Hctx.
    rewrite (App_handleMouseUp_throws env s Hgain Hctx).
    conjuncts; reflexivity.
  - exact release_at_600_500_R.
  - vm_compute. reflexivity.
  - vm_compute. reflexivity.
Qed.

(** The general part at the scenario of the specification. *)
Lemma release_rest_on_circle_at_600_500 :
  let s := idle (at_ 500 500) (at_ 600 500) (at_ 600 500) (at_ 500 620) in
  let r := restPosition (fst (App.handleMouseUp (sample_env : Env R) s)) in
  calculateRopeLength (int 500) (int 500) (x r) (y r) = 120%R.
Proof.
  intros s r.
  apply (proj1 release_rest_on_circle sample_env s).
  - cbn. discriminate.
  - intros Hgain. exfalso. apply Hgain. reflexivity.
  - cbn. intros Heq. injection Heq as Hx. revert Hx. js_R. lra.
Defined.

(** In binary64 a release at (533, 577) around (500, 500), off the axes,
    leaves the rest position off the circle of radius [120]: the distance
    the script computes for it is [120 - 3 / 2^46], three units in the last
    place under [120], and the exact squared distance of the binary64 point
    from the centre is not [120 * 120]. *)
Lemma release_off_circle_in_binary64 :
  let s : State float :=
    idle (at_ 500 500) (at_ 533 577) (at_ 533 577) (at_ 500 620) in
  let r := restPosition (fst (App.handleMouseUp sample_env s)) in
  PrimFloat.eqb (x (mousePosition s)) (x (windowCenter s)) = false /\
  throws (snd (App.handleMouseUp sample_env s)) = false /\
  calculateRopeLength (int 500) (int 500) (x r) (y r)
  = sub (int 120) (div (int 3) (int (2 ^ 46))) /\
  PrimFloat.eqb (calculateRopeLength (int 500) (int 500) (x r) (y r)) (int 120) = false /\
  QArith_base.Qeq_bool (exact_squared_distance (at_ 500 500) r)
                       (QArith_base.inject_Z (120 * 120)) = false /\
  QArith_base.Qeq_bool (exact_squared_distance (at_ 500 500) (at_ 620 500))
                       (QArith_base.inject_Z (120 * 120)) = true.
Proof. vm_compute. conjuncts; reflexivity. Qed.

(** C1, on the code: a release with the recorded pointer position on the
    window centre divides [0] by the distance [0].  The rope end is grabbed
    where it rests, at (500, 620), dragged onto the centre (500, 500) and
    released.  In binary64 both components of the new rest position are NaN,
    in [App.vue] and, from the same pointer position, in the other variant;
    no fallback direction is taken and no error is raised.  The NaN then
    enters the rope end through [lerp], and a rope end at NaN cannot be
    grabbed again, the test [distance <= 18] being false. *)
Theorem release_at_centre_is_NaN :
  let s0 : State float :=
    idle (at_ 500 500) (at_ 0 0) (at_ 500 620) (at_ 500 620) in
  let s1 := fst (App.handleMouseDown (mkMouseEvent (int 500) (int 620)) s0) in
  let s2 := handleMouseMove (mkMouseEvent (int 500) (int 500)) s1 in
  let a := restPosition (fst (App.handleMouseUp sample_env s2)) in
  let b := restPosition (fst (Part000.handleMouseUp sample_env s2)) in
  isDragging s1 = true /\
  mousePosition s2 = windowCenter s2 /\
  PrimFloat.is_nan (x a) = true /\ PrimFloat.is_nan (y a) = true /\
  PrimFloat.is_nan (x b) = true /\ PrimFloat.is_nan (y b) = true /\
  throws (snd (App.handleMouseUp sample_env s2)) = false /\
  PrimFloat.is_nan (lerp (x (currentRopeEnd s2)) (x a) (dec 1 2)) = true /\
  isDragging
    (fst (App.handleMouseDown (mkMouseEvent (int 500) (int 500))
            (idle (at_ 500 500) (at_ 500 500) a a))) = false.
Proof. vm_compute. conjuncts; reflexivity. Qed.

(** ** Settling *)

Section Settling.
Local Open Scope R_scope.

Lemma animate_settling [env : Env R] [s : State R] :
  surfaces_ready env ->
  isDragging s = false ->
  let s' := fst (App.animate env s) in
  currentRopeEnd s'
  = mkPoint (lerp (x (currentRopeEnd s)) (x (restPosition s)) (dec 1 2))
            (lerp (y (currentRopeEnd s)) (y (restPosition s)) (dec 1 2)) /\
  restPosition s' = restPosition s /\
  isDragging s' = false.
Proof.
  intros [Hcanvas Hwin] Hdrag. unfold App.animate.
  rewrite Hcanvas, Hdrag.
  destruct (windowDiv env) as [rect |]; [| contradiction].
  match goal with |- context [throws ?t] => destruct (throws t) end;
    cbn; rewrite ?Hdrag; conjuncts; reflexivity.
Qed.

Lemma lerp_settle (e r : R) : lerp e r (dec 1 2) - r = 99 / 100 * (e - r).
Proof. unfold lerp. js_R. lra. Qed.

Lemma settle_distance_step [env : Env R] [s : State R] :
  surfaces_ready env ->
  isDragging s = false ->
  settle_distance (fst (App.animate env s)) = 99 / 100 * settle_distance s.
Proof.
  intros Henv Hdrag.
  destruct (animate_settling Henv Hdrag) as (Hend & Hrest & _).
  unfold settle_distance. rewrite Hend, Hrest. cbn [x y].
  rewrite !calculateRopeLength_R, !lerp_settle.
  replace ((99 / 100 * (x (currentRopeEnd s) - x (restPosition s))) ^ 2
           + (99 / 100 * (y (currentRopeEnd s) - y (restPosition s))) ^ 2)
    with (99 / 100 * (99 / 100)
          * ((x (currentRopeEnd s) - x (restPosition s)) ^ 2
             + (y (currentRopeEnd s) - y (restPosition s)) ^ 2))
    by ring.
  rewrite sqrt_mult_alt by lra.
  rewrite sqrt_square by lra. reflexivity.
Qed.

Lemma ticks_settling [envs : list (Env R)] [s : State R] :
  Forall surfaces_ready envs ->
  isDragging s = false ->
  isDragging (ticks envs s) = false /\
  settle_distance (ticks envs s) = (99 / 100) ^ List.length envs * settle_distance s.
Proof.
  intros Henvs. revert s.
  induction Henvs as [| env envs Henv _ IH]; intros s Hdrag.
  - cbn. split; [exact Hdrag | lra].
  - cbn [ticks List.length].
    destruct (animate_settling Henv Hdrag) as (_ & _ & Hdrag').
    destruct (IH _ Hdrag') as [Hd Hdist].
    split; [exact Hd |].
    rewrite Hdist, (settle_distance_step Henv Hdrag). cbn [pow]. ring.
Qed.

Lemma settle_distance_pos [s : State R] :
  currentRopeEnd s <> restPosition s -> 0 < settle_distance s.
Proof.
  intros Hneq. apply point_neq in Hneq.
  unfold settle_distance. rewrite calculateRopeLength_R.
  apply sqrt_lt_R0. revert Hneq.
  generalize (x (currentRopeEnd s) - x (restPosition s)).
  generalize (y (currentRopeEnd s) - y (restPosition s)).
  intros b a [Hz | Hz];
    pose proof (Rsqr_pos_lt _ Hz) as Hp; unfold Rsqr in Hp; nra.
Qed.
End Settling.

(** Settling in exact arithmetic: with dragging off and the rest position
    fixed, from a rope end that differs from the rest position every frame
    that finds its canvas and window multiplies the distance between the two
    by [0.99]: each frame strictly decreases it, and for every positive [eps]
    there is a number of frames from which on the distance is under [eps]. *)
Lemma settling_converges :
  forall s : State R,
    isDragging s = false ->
    currentRopeEnd s <> restPosition s ->
    (forall (envs : list (Env R)) (env : Env R),
        Forall surfaces_ready envs -> surfaces_ready env ->
        (settle_distance (fst (App.animate env (ticks envs s)))
         = 99 / 100 * settle_distance (ticks envs s) /\
         settle_distance (fst (App.animate env (ticks envs s)))
         < settle_distance (ticks envs s))%R) /\
    (forall eps : R,
        (0 < eps)%R ->
        exists n : nat,
          forall envs : list (Env R),
            Forall surfaces_ready envs -> (n <= List.length envs)%nat ->
            (settle_distance (ticks envs s) < eps)%R).
Proof.
  intros s Hdrag Hneq.
  pose proof (settle_distance_pos Hneq) as Hpos.
  split.
  - intros envs env Henvs Henv.
    destruct (ticks_settling Henvs Hdrag) as [Hd Hdist].
    rewrite (settle_distance_step Henv Hd).
    split; [reflexivity |].
    assert (Hq : (0 < (99 / 100) ^ List.length envs)%R) by (apply pow_lt; lra).
    rewrite Hdist. nra.
  - intros eps Heps.
    assert (Hratio : (Rabs (99 / 100) < 1)%R) by (rewrite Rabs_pos_eq; lra).
    assert (Htarget : (0 < eps / settle_distance s)%R)
      by (apply Rdiv_lt_0_compat; assumption).
    destruct (pow_lt_1_zero _ Hratio _ Htarget) as [n Hn].
    exists n. intros envs Henvs Hlen.
    destruct (ticks_settling Henvs Hdrag) as [_ ->].
    specialize (Hn (List.length envs) Hlen).
    rewrite Rabs_pos_eq in Hn by (apply pow_le; lra).
    apply Rmult_lt_compat_r with (r := settle_distance s) in Hn; [| exact Hpos].
    replace (eps / settle_distance s * settle_distance s)%R with eps in Hn
      by (field; lra).
    exact Hn.
Qed.

(** *** The same run in binary64 *)

Lemma ticks_fixed {N : Type} `{Number N} `{Trig N}
    (env : Env N) (s : State N) (n : nat) :
  fst (App.animate env s) = s -> ticks (repeat env n) s = s.
Proof.
  intros Hfix. induction n as [| n IH]; [reflexivity |].
  cbn [repeat ticks]. rewrite Hfix. exact IH.
Qed.

Lemma ticks_app {N : Type} `{Number N} `{Trig N}
    (envs1 envs2 : list (Env N)) (s : State N) :
  ticks (envs1 ++ envs2) s = ticks envs2 (ticks envs1 s).
Proof.
  revert s. induction envs1 as [| env envs1 IH]; intros s; [reflexivity |].
  cbn [app ticks]. apply IH.
Qed.

(** The rope end released at (700, 500) settling towards (620, 500), whatever
    [Math.atan2] computes: the audio is off, the angle is never taken. *)
Lemma binary64_settling_run (HT : Trig float) :
  let s0 : State float :=
    idle (at_ 500 500) (at_ 600 500) (at_ 700 500) (at_ 620 500) in
  let s := ticks (repeat sample_env 3001) s0 in
  settling_strictly (repeat sample_env 3001) s0 = true /\
  settle_distance s = div (int 25) (int (2 ^ 42)) /\
  fst (App.animate sample_env s) = s.
Proof. vm_compute. conjuncts; reflexivity. Qed.

Lemma binary64_settled_for_good (HT : Trig float) (n : nat) :
  let s0 : State float :=
    idle (at_ 500 500) (at_ 600 500) (at_ 700 500) (at_ 620 500) in
  ticks (repeat sample_env (3001 + n)) s0 = ticks (repeat sample_env 3001) s0.
Proof.
  intros s0. rewrite repeat_app, ticks_app.
  apply ticks_fixed. apply (binary64_settling_run HT).
Qed.

(** C8 as the code has it: with dragging off and the rest position fixed,
    from a rope end that differs from the rest position every frame that
    finds its canvas and window multiplies the distance between the two by
    [0.99] in exact arithmetic, where each frame therefore strictly decreases
    it and for every positive [eps] there is a number of frames from which on
    the distance is under [eps].  In binary64, the arithmetic of the running
    script, the decrease ends at rounding level: released at (700, 500) and
    settling towards (620, 500), the computed distance strictly decreases on
    each of the first 3001 frames, down to [25 / 2^42] (about [5.7e-12]), and
    no later frame moves the rope end. *)
Theorem settling_contracts_until_rounding :
  (forall s : State R,
      isDragging s = false ->
      currentRopeEnd s <> restPosition s ->
      (forall (envs : list (Env R)) (env : Env R),
          Forall surfaces_ready envs -> surfaces_ready env ->
          (settle_distance (fst (App.animate env (ticks envs s)))
           = 99 / 100 * settle_distance (ticks envs s) /\
           settle_distance (fst (App.animate env (ticks envs s)))
           < settle_distance (ticks envs s))%R) /\
      (forall eps : R,
          (0 < eps)%R ->
          exists n : nat,
            forall envs : list (Env R),
              Forall surfaces_ready envs -> (n <= List.length envs)%nat ->
              (settle_distance (ticks envs s) < eps)%R)) /\
  (forall (HT : Trig float) (n : nat),
      let s0 : State float :=
        idle (at_ 500 500) (at_ 600 500) (at_ 700 500) (at_ 620 500) in
      settling_strictly (repeat sample_env 3001) s0 = true /\
      settle_distance (ticks (repeat sample_env 3001) s0)
      = div (int 25) (int (2 ^ 42)) /\
      currentRopeEnd (ticks (repeat sample_env (3001 + n)) s0)
      = currentRopeEnd (ticks (repeat sample_env 3001) s0)).
Proof.
  split; [exact settling_converges |].
  intros HT n s0.
  destruct (binary64_settling_run HT) as (Hstrict & Hdist & _).
  conjuncts; [exact Hstrict | exact Hdist |].
  unfold s0. rewrite (binary64_settled_for_good HT n). reflexivity.
Qed.

(** The exact part at the rope end released at (700, 500) settling towards
    (620, 500). *)
Lemma settling_contracts_from_700 :
  let s : State R := idle (at_ 500 500) (at_ 600 500) (at_ 700 500) (at_ 620 500) in
  exists n : nat,
    forall envs : list (Env R),
      Forall surfaces_ready envs -> (n <= List.length envs)%nat ->
      (settle_distance (ticks envs s) < 1 / 1000)%R.
Proof.
  intros s.
  apply (proj1 settling_contracts_until_rounding s).
  - reflexivity.
  - cbn. intros Heq. injection Heq as Hx. revert Hx. js_R. lra.
  - lra.
Defined.

(** In binary64 the frames of that run stop decreasing the distance: from
    the 3001st frame on the rope end differs from the rest position, the
    computed distance is [25 / 2^42], over [1e-12], and one more frame leaves
    it as it is. *)
Lemma settling_stalls_in_binary64 :
  let s0 : State float :=
    idle (at_ 500 500) (at_ 600 500) (at_ 700 500) (at_ 620 500) in
  isDragging s0 = false /\
  PrimFloat.eqb (x (currentRopeEnd s0)) (x (restPosition s0)) = false /\
  (forall (HT : Trig float) (n : nat),
      let s := ticks (repeat sample_env (3001 + n)) s0 in
      settle_distance s = div (int 25) (int (2 ^ 42)) /\
      PrimFloat.eqb (x (currentRopeEnd s)) (x (restPosition s)) = false /\
      PrimFloat.ltb (settle_distance (fst (App.animate sample_env s)))
                    (settle_distance s) = false /\
      PrimFloat.ltb (settle_distance s) (dec 1 12) = false).
Proof.
  cbv zeta. conjuncts; [reflexivity | vm_compute; reflexivity |].
  intros HT n.
  rewrite (binary64_settled_for_good HT n).
  vm_compute. conjuncts; reflexivity.
Qed.

(** ** Teardown *)

Section Teardown.
Context {N : Type} `{Number N}.

Lemma App_onUnmounted_releases (s : State N) :
  releases (snd (App.onUnmounted s))
  = match animationFrameId s with
    | Some id => [cancelAnimationFrame id]
    | None => []
    end
    ++ when_set (oscillator s) [oscillator_stop]
    ++ when_set (audioContext s) [audioContext_close]
    ++ when_set (lfo s) [lfo_stop].
Proof.
  unfold App.onUnmounted, releases. cbn [snd].
  destruct (animationFrameId s), (oscillator s), (audioContext s), (lfo s);
    reflexivity.
Qed.

Lemma App_onUnmounted_no_throw (s : State N) :
  throws (snd (App.onUnmounted s)) = false.
Proof.
  unfold App.onUnmounted. cbn [snd].
  destruct (animationFrameId s), (oscillator s), (audioContext s), (lfo s);
    reflexivity.
Qed.

(** The slip of the other variant: its teardown throws on every state,
    before it reaches the modulation source and the listeners. *)
Lemma Part000_onUnmounted_throws (s : State N) :
  throws (snd (Part000.onUnmounted s)) = true /\
  ~ In lfo_stop (snd (Part000.onUnmounted s)) /\
  ~ In (removeEventListener "mouseup") (snd (Part000.onUnmounted s)).
Proof.
  unfold Part000.onUnmounted. cbn [snd].
  destruct (animationFrameId s), (oscillator s), (audioContext s);
    cbn; conjuncts; try reflexivity; intuition discriminate.
Qed.
End Teardown.

(** C9 as [App.vue] has it: one teardown cancels the scheduled frame if there
    is one, stops the oscillator, closes the audio context and stops the
    modulation source, each once and each only if its handle is set, and
    raises no error; with audio never initialised and no frame scheduled it
    makes none of these calls.  Only [lowpassFilter] is cleared: the other
    handles and the frame id stay set, so a second teardown makes the same
    calls again. *)
Theorem teardown_releases_each_call :
  forall (N : Type) (HN : Number N) (s : State N),
    let s' := fst (App.onUnmounted s) in
    releases (snd (App.onUnmounted s))
    = match animationFrameId s with
      | Some id => [cancelAnimationFrame id]
      | None => []
      end
      ++ when_set (oscillator s) [oscillator_stop]
      ++ when_set (audioContext s) [audioContext_close]
      ++ when_set (lfo s) [lfo_stop] /\
    throws (snd (App.onUnmounted s)) = false /\
    (animationFrameId s' = animationFrameId s /\ oscillator s' = oscillator s /\
     audioContext s' = audioContext s /\ lfo s' = lfo s /\
     lowpassFilter s' = None) /\
    releases (snd (App.onUnmounted s')) = releases (snd (App.onUnmounted s)) /\
    releases (snd (App.onUnmounted (initial : State N))) = [] /\
    releases
      (snd (App.onUnmounted
              (set_animationFrameId (Some 7%nat) (fst (App.initAudio initial)))))
    = [cancelAnimationFrame 7; oscillator_stop; audioContext_close; lfo_stop].
Proof.
  intros N HN s s'. conjuncts; try reflexivity.
  - apply App_onUnmounted_releases.
  - apply App_onUnmounted_no_throw.
Qed.

(** After the first grab created the audio graph and a frame was scheduled,
    the second of two teardowns in a row stops and closes again: it is not a
    call without effect. *)
Lemma repeated_teardown_repeats_calls :
  let s : State float :=
    set_animationFrameId (Some 7%nat) (fst (App.initAudio initial)) in
  releases (snd (App.onUnmounted s))
  = [cancelAnimationFrame 7; oscillator_stop; audioContext_close; lfo_stop] /\
  releases (snd (App.onUnmounted (fst (App.onUnmounted s))))
  = [cancelAnimationFrame 7; oscillator_stop; audioContext_close; lfo_stop] /\
  releases (snd (App.onUnmounted (fst (App.onUnmounted s)))) <> [].
Proof. vm_compute. conjuncts; [reflexivity | reflexivity | discriminate]. Qed.

(** * Further properties of the script *)

(** ** The audio graph is built once *)

(** X1: [initAudio] raises the flag; called again it changes nothing and
    makes no call, and once the flag is up a mouse down, hit or miss, makes
    no host call at all.  In both copies, in any arithmetic. *)
Theorem initAudio_once :
  forall (N : Type) (HN : Number N) (s : State N) (e : MouseEvent N),
    (isAudioInitialized (fst (App.initAudio s)) = true /\
     App.initAudio (fst (App.initAudio s)) = (fst (App.initAudio s), []) /\
     (isAudioInitialized s = false ->
      audio_ready (fst (App.initAudio s)) /\
      In new_AudioContext (snd (App.initAudio s))) /\
     (isAudioInitialized s = true -> snd (App.handleMouseDown e s) = [])) /\
    (isAudioInitialized (fst (Part000.initAudio s)) = true /\
     Part000.initAudio (fst (Part000.initAudio s))
     = (fst (Part000.initAudio s), []) /\
     (isAudioInitialized s = false ->
      audio_ready (fst (Part000.initAudio s)) /\
      In new_AudioContext (snd (Part000.initAudio s))) /\
     (isAudioInitialized s = true -> snd (Part000.handleMouseDown e s) = [])).
Proof.
  intros N HN s e. split.
  - unfold App.handleMouseDown, App.initAudio, audio_ready.
    destruct (isAudioInitialized s) eqn:Hflag; cbn; rewrite ?Hflag; cbn;
      conjuncts; try reflexivity; try discriminate.
    + intros _. destruct (leb _ _); reflexivity.
    + intros _. conjuncts; try reflexivity. left. reflexivity.
  - unfold Part000.handleMouseDown, Part000.initAudio, audio_ready.
    destruct (isAudioInitialized s) eqn:Hflag; cbn; rewrite ?Hflag; cbn;
      conjuncts; try reflexivity; try discriminate.
    + intros _. destruct (leb _ _); reflexivity.
    + intros _. conjuncts; try reflexivity. left. reflexivity.
Qed.

(** ** Grabbing the rope end *)

Lemma Rleb_true (a b : R) : (a <= b)%R -> Rleb a b = true.
Proof. intros Hab. unfold Rleb. destruct (Rle_dec a b); [reflexivity | contradiction]. Qed.

Lemma Rleb_false (a b : R) : (b < a)%R -> Rleb a b = false.
Proof. intros Hab. unfold Rleb. destruct (Rle_dec a b); [lra | reflexivity]. Qed.

Lemma App_handleMouseDown_R (e : MouseEvent R) (s : State R) :
  App.handleMouseDown e s
  = if Rleb (sqrt ((clientX e - x (currentRopeEnd s))
                   * (clientX e - x (currentRopeEnd s))
                   + (clientY e - y (currentRopeEnd s))
                     * (clientY e - y (currentRopeEnd s)))) 18
    then (updateMousePosition e (set_isDragging true (fst (App.initAudio s))),
          snd (App.initAudio s))
    else (s, []).
Proof.
  unfold App.handleMouseDown. rewrite int_R. cbv zeta.
  change (@leb R Number_R) with Rleb. change (@Math_sqrt R Number_R) with sqrt.
  change (@add R Number_R) with Rplus. change (@sub R Number_R) with Rminus.
  change (@mul R Number_R) with Rmult.
  destruct (Rleb _ 18); [| reflexivity].
  destruct (App.initAudio s). reflexivity.
Qed.

Lemma Part000_handleMouseDown_R (e : MouseEvent R) (s : State R) :
  Part000.handleMouseDown e s
  = if Rleb (sqrt ((clientX e - x (currentRopeEnd s))
                   * (clientX e - x (currentRopeEnd s))
                   + (clientY e - y (currentRopeEnd s))
                     * (clientY e - y (currentRopeEnd s)))) 10
    then (updateMousePosition e (set_isDragging true (fst (Part000.initAudio s))),
          snd (Part000.initAudio s))
    else (s, []).
Proof.
  unfold Part000.handleMouseDown. rewrite int_R. cbv zeta.
  change (@leb R Number_R) with Rleb. change (@Math_sqrt R Number_R) with sqrt.
  change (@add R Number_R) with Rplus. change (@sub R Number_R) with Rminus.
  change (@mul R Number_R) with Rmult.
  destruct (Rleb _ 10); [| reflexivity].
  destruct (Part000.initAudio s). reflexivity.
Qed.

(** X2: a mouse down farther than the handle radius from the rope end ([18]
    in [App.vue], [10] in the other copy) changes nothing and makes no call;
    one within the radius, the boundary included, starts the drag, records
    the pointer, raises the audio flag and leaves rope end, rest position and
    window centre where they are. *)
Theorem grab_hit_test :
  forall (e : MouseEvent R) (s : State R),
    let d :=
      sqrt ((clientX e - x (currentRopeEnd s)) * (clientX e - x (currentRopeEnd s))
            + (clientY e - y (currentRopeEnd s)) * (clientY e - y (currentRopeEnd s)))%R in
    ((18 < d)%R -> App.handleMouseDown e s = (s, [])) /\
    ((d <= 18)%R ->
     let s' := fst (App.handleMouseDown e s) in
     isDragging s' = true /\ mousePosition s' = mkPoint (clientX e) (clientY e) /\
     isAudioInitialized s' = true /\ currentRopeEnd s' = currentRopeEnd s /\
     restPosition s' = restPosition s /\ windowCenter s' = windowCenter s) /\
    ((10 < d)%R -> Part000.handleMouseDown e s = (s, [])) /\
    ((d <= 10)%R ->
     let s' := fst (Part000.handleMouseDown e s) in
     isDragging s' = true /\ mousePosition s' = mkPoint (clientX e) (clientY e) /\
     isAudioInitialized s' = true /\ currentRopeEnd s' = currentRopeEnd s /\
     restPosition s' = restPosition s /\ windowCenter s' = windowCenter s).
Proof.
  intros e s d. conjuncts.
  - intros Hfar. rewrite App_handleMouseDown_R. fold d.
    rewrite Rleb_false by exact Hfar. reflexivity.
  - intros Hnear. rewrite App_handleMouseDown_R. fold d.
    rewrite Rleb_true by exact Hnear.
    unfold App.initAudio. destruct (isAudioInitialized s) eqn:Hflag;
      cbn; conjuncts; try reflexivity; exact Hflag.
  - intros Hfar. rewrite Part000_handleMouseDown_R. fold d.
    rewrite Rleb_false by exact Hfar. reflexivity.
  - intros Hnear. rewrite Part000_handleMouseDown_R. fold d.
    rewrite Rleb_true by exact Hnear.
    unfold Part000.initAudio. destruct (isAudioInitialized s) eqn:Hflag;
      cbn; conjuncts; try reflexivity; exact Hflag.
Qed.

(** ** Releasing twice *)

(** X3: a release always ends the drag, and a second release right after the
    first leaves the state the first produced: the rest position is computed
    from the pointer position and the window centre, which a release does not
    change.  In both copies, in any arithmetic and any host. *)
Theorem release_idempotent :
  forall (N : Type) (HN : Number N) (env : Env N) (s : State N),
    (isDragging (fst (App.handleMouseUp env s)) = false /\
     fst (App.handleMouseUp env (fst (App.handleMouseUp env s)))
     = fst (App.handleMouseUp env s)) /\
    (isDragging (fst (Part000.handleMouseUp env s)) = false /\
     fst (Part000.handleMouseUp env (fst (Part000.handleMouseUp env s)))
     = fst (Part000.handleMouseUp env s)).
Proof.
  intros N HN env s.
  unfold App.handleMouseUp, Part000.handleMouseUp,
    App.calculateRestPosition, Part000.calculateRestPosition.
  destruct s as [d m c r e f ac o g l lg lp fl].
  destruct (windowDiv env) as [rect |], g, ac; cbn; conjuncts; reflexivity.
Qed.

(** ** A display frame *)

Section Frames.
Context {N : Type} `{Number N} `{Trig N}.

Lemma App_updateAudio_no_throw (env : Env N) (s : State N) (ropeLength : N) :
  throws (App.updateAudio env s ropeLength) = false.
Proof.
  unfold App.updateAudio.
  destruct (oscillator s), (gainNode s), (audioContext s), (lfo s), (lfoGain s);
    try reflexivity.
  destruct (findClosest_member
              (App.baseFrequency
                 (calculateAngle (x (windowCenter s)) (y (windowCenter s))
                    (x (currentRopeEnd s)) (y (currentRopeEnd s)))))
    as (snapped & -> & _).
  destruct (lowpassFilter s); reflexivity.
Qed.

Lemma App_animate_cases (env : Env N) (s : State N) :
  (canvas env = true /\ windowDiv env <> None /\
   exists e audio,
     throws audio = false /\
     App.animate env s
     = (set_animationFrameId (Some (frameId env)) (set_currentRopeEnd e s),
        context_clearRect :: audio
        ++ [ windowDiv_style_size
               (App.newSize
                  (calculateRopeLength (x (windowCenter s)) (y (windowCenter s))
                                       (x e) (y e)));
             context_stroke (windowCenter s) e;
             context_fill_arc e (int 18);
             requestAnimationFrame (frameId env) ])) \/
  ((canvas env = false \/ windowDiv env = None) /\
   App.animate env s
   = (set_animationFrameId (Some (frameId env)) s,
      [requestAnimationFrame (frameId env)])).
Proof.
  unfold App.animate.
  destruct (canvas env); [| right; split; [left |]; reflexivity].
  destruct (windowDiv env) as [rect |]; [| right; split; [right |]; reflexivity].
  left. conjuncts; [reflexivity | discriminate |].
  cbv zeta. rewrite App_updateAudio_no_throw.
  eexists. eexists. split; [| reflexivity].
  apply App_updateAudio_no_throw.
Qed.
End Frames.

(** X5: a frame writes the rope end and the frame id and nothing else:
    drag flag, pointer, window centre, rest position, audio handles and the
    audio flag are those it found.  A frame of [App.vue] that misses the
    canvas or the [.window] element, or one of the other copy that misses the
    canvas, leaves the rope end too and makes no call but the request for
    the next frame. *)
Theorem frame_writes_rope_end_only :
  forall (N : Type) (HN : Number N) (HT : Trig N) (env : Env N) (s : State N),
    let unchanged (s' : State N) :=
      isDragging s' = isDragging s /\ mousePosition s' = mousePosition s /\
      windowCenter s' = windowCenter s /\ restPosition s' = restPosition s /\
      audioContext s' = audioContext s /\ oscillator s' = oscillator s /\
      gainNode s' = gainNode s /\ lfo s' = lfo s /\ lfoGain s' = lfoGain s /\
      lowpassFilter s' = lowpassFilter s /\
      isAudioInitialized s' = isAudioInitialized s in
    unchanged (fst (App.animate env s)) /\
    unchanged (fst (Part000.animate env s)) /\
    (canvas env = false \/ windowDiv env = None ->
     currentRopeEnd (fst (App.animate env s)) = currentRopeEnd s /\
     snd (App.animate env s) = [requestAnimationFrame (frameId env)]) /\
    (canvas env = false ->
     currentRopeEnd (fst (Part000.animate env s)) = currentRopeEnd s /\
     snd (Part000.animate env s) = [requestAnimationFrame (frameId env)]).
Proof.
  intros N HN HT env s unchanged. unfold unchanged. conjuncts.
  1-11: destruct (App_animate_cases env s)
      as [(_ & _ & e & audio & _ & ->) | (_ & ->)]; reflexivity.
  1-11: unfold Part000.animate; destruct (canvas env); reflexivity.
  - intros Hmiss.
    destruct (App_animate_cases env s)
      as [(Hc & Hw & _) | (_ & ->)]; [| split; reflexivity].
    destruct Hmiss as [Hmiss | Hmiss]; [congruence | contradiction].
  - intros Hmiss. unfold Part000.animate. rewrite Hmiss. split; reflexivity.
Qed.

(** ** Tracking the pointer during a drag *)

Section Tracking.
Local Open Scope R_scope.

Lemma animate_dragging [env : Env R] [s : State R] :
  surfaces_ready env ->
  isDragging s = true ->
  let s' := fst (App.animate env s) in
  currentRopeEnd s'
  = mkPoint (lerp (x (currentRopeEnd s)) (x (mousePosition s)) (dec 2 1))
            (lerp (y (currentRopeEnd s)) (y (mousePosition s)) (dec 2 1)) /\
  mousePosition s' = mousePosition s /\
  isDragging s' = true.
Proof.
  intros [Hcanvas Hwin] Hdrag. unfold App.animate.
  rewrite Hcanvas, Hdrag.
  destruct (windowDiv env) as [rect |]; [| contradiction].
  match goal with |- context [throws ?t] => destruct (throws t) end;
    cbn; rewrite ?Hdrag; conjuncts; reflexivity.
Qed.

Lemma lerp_track (e m : R) : lerp e m (dec 2 1) - m = 8 / 10 * (e - m).
Proof. unfold lerp. js_R. lra. Qed.

Lemma scaled_distance (q a b : R) :
  0 <= q -> sqrt ((q * a) ^ 2 + (q * b) ^ 2) = q * sqrt (a ^ 2 + b ^ 2).
Proof.
  intros Hq.
  replace ((q * a) ^ 2 + (q * b) ^ 2) with (q * q * (a ^ 2 + b ^ 2)) by ring.
  rewrite sqrt_mult_alt by nra.
  rewrite sqrt_square by exact Hq. reflexivity.
Qed.

Lemma track_distance_step [env : Env R] [s : State R] :
  surfaces_ready env ->
  isDragging s = true ->
  track_distance (fst (App.animate env s)) = 8 / 10 * track_distance s.
Proof.
  intros Henv Hdrag.
  destruct (animate_dragging Henv Hdrag) as (Hend & Hmouse & _).
  unfold track_distance. rewrite Hend, Hmouse. cbn [x y].
  rewrite !calculateRopeLength_R, !lerp_track.
  apply scaled_distance. lra.
Qed.

Lemma ticks_tracking [envs : list (Env R)] [s : State R] :
  Forall surfaces_ready envs ->
  isDragging s = true ->
  isDragging (ticks envs s) = true /\
  mousePosition (ticks envs s) = mousePosition s /\
  track_distance (ticks envs s) = (8 / 10) ^ List.length envs * track_distance s.
Proof.
  intros Henvs. revert s.
  induction Henvs as [| env envs Henv _ IH]; intros s Hdrag.
  - cbn. conjuncts; [exact Hdrag | reflexivity | lra].
  - cbn [ticks List.length].
    destruct (animate_dragging Henv Hdrag) as (_ & Hmouse & Hdrag').
    destruct (IH _ Hdrag') as (Hd & Hm & Hdist).
    conjuncts; [exact Hd | rewrite Hm; exact Hmouse |].
    rewrite Hdist, (track_distance_step Henv Hdrag). cbn [pow]. ring.
Qed.

Lemma Part000_animate_step (env : Env R) (s : State R) :
  canvas env = true ->
  currentRopeEnd (fst (Part000.animate env s))
  = if isDragging s
    then mkPoint (lerp (x (currentRopeEnd s)) (x (mousePosition s)) (dec 2 1))
                 (lerp (y (currentRopeEnd s)) (y (mousePosition s)) (dec 2 1))
    else mkPoint (lerp (x (currentRopeEnd s)) (x (restPosition s)) (dec 1 2))
                 (lerp (y (currentRopeEnd s)) (y (restPosition s)) (dec 1 2)).
Proof.
  intros Hcanvas. unfold Part000.animate. rewrite Hcanvas.
  destruct (isDragging s); reflexivity.
Qed.
End Tracking.

(** X6: during a drag the pointer position is kept and every frame that
    finds its canvas and window multiplies the distance from the pointer to
    the rope end by [0.8]; so for every positive [eps] there is a number of
    frames from which on the rope end is within [eps] of the pointer.  A
    frame of the other copy that finds its canvas multiplies that distance by
    [0.8] as well, and by [0.99] the distance to the rest position when no
    drag is on. *)
Theorem drag_tracking_converges :
  forall s : State R,
    isDragging s = true ->
    (forall (envs : list (Env R)) (env : Env R),
        Forall surfaces_ready envs -> surfaces_ready env ->
        mousePosition (ticks envs s) = mousePosition s /\
        track_distance (fst (App.animate env (ticks envs s)))
        = (8 / 10 * track_distance (ticks envs s))%R) /\
    (forall eps : R,
        (0 < eps)%R ->
        exists n : nat,
          forall envs : list (Env R),
            Forall surfaces_ready envs -> (n <= List.length envs)%nat ->
            (track_distance (ticks envs s) < eps)%R) /\
    (forall env : Env R,
        canvas env = true ->
        track_distance (fst (Part000.animate env s))
        = (8 / 10 * track_distance s)%R) /\
    (forall (env : Env R) (s0 : State R),
        canvas env = true -> isDragging s0 = false ->
        settle_distance (fst (Part000.animate env s0))
        = (99 / 100 * settle_distance s0)%R).
Proof.
  intros s Hdrag. conjuncts.
  - intros envs env Henvs Henv.
    destruct (ticks_tracking Henvs Hdrag) as (Hd & Hm & _).
    split; [exact Hm | apply (track_distance_step Henv Hd)].
  - intros eps Heps.
    assert (Hd0 : (0 <= track_distance s)%R).
    { unfold track_distance. rewrite calculateRopeLength_R. apply sqrt_pos. }
    assert (Hratio : (Rabs (8 / 10) < 1)%R) by (rewrite Rabs_pos_eq; lra).
    assert (Htarget : (0 < eps / (track_distance s + 1))%R)
      by (apply Rdiv_lt_0_compat; lra).
    destruct (pow_lt_1_zero _ Hratio _ Htarget) as [n Hn].
    exists n. intros envs Henvs Hlen.
    destruct (ticks_tracking Henvs Hdrag) as (_ & _ & ->).
    specialize (Hn (List.length envs) Hlen).
    rewrite Rabs_pos_eq in Hn by (apply pow_le; lra).
    assert (Hq : (0 <= (8 / 10) ^ List.length envs)%R) by (apply pow_le; lra).
    apply Rle_lt_trans with ((8 / 10) ^ List.length envs * (track_distance s + 1))%R;
      [nra |].
    apply Rmult_lt_compat_r with (r := (track_distance s + 1)%R) in Hn; [| lra].
    replace (eps / (track_distance s + 1) * (track_distance s + 1))%R with eps in Hn
      by (field; lra).
    exact Hn.
  - intros env Hcanvas.
    unfold track_distance.
    replace (mousePosition (fst (Part000.animate env s))) with (mousePosition s)
      by (unfold Part000.animate; destruct (canvas env); reflexivity).
    rewrite (Part000_animate_step env s Hcanvas), Hdrag. cbn [x y].
    rewrite !calculateRopeLength_R, !lerp_track.
    apply scaled_distance. lra.
  - intros env s0 Hcanvas Hrel.
    unfold settle_distance.
    replace (restPosition (fst (Part000.animate env s0))) with (restPosition s0)
      by (unfold Part000.animate; destruct (canvas env); reflexivity).
    rewrite (Part000_animate_step env s0 Hcanvas), Hrel. cbn [x y].
    rewrite !calculateRopeLength_R, !lerp_settle.
    apply scaled_distance. lra.
Qed.

(** The rope end resting at (500, 620) dragged towards the pointer at
    (700, 500). *)
Lemma drag_tracking_towards_700 :
  let s : State R := playing (at_ 500 500) (at_ 700 500) (at_ 500 620) (at_ 500 620) in
  exists n : nat,
    forall envs : list (Env R),
      Forall surfaces_ready envs -> (n <= List.length envs)%nat ->
      (track_distance (ticks envs s) < 1 / 2)%R.
Proof.
  intros s.
  apply (drag_tracking_converges s).
  - reflexivity.
  - lra.
Defined.

(** ** No sound before the first grab *)

Section AudioInvariant.
Context {N : Type} `{Number N} `{Trig N}.

Lemma silent_app (t u : list (ShellCall N)) :
  silent (t ++ u) = silent t && silent u.
Proof. unfold silent. apply forallb_app. Qed.

Lemma dispatch_audio_on (env : Env N) (ev : Event N) (s : State N) :
  audio_on s -> audio_on (fst (App_dispatch env ev s)).
Proof.
  destruct s as [d m c r e f ac o g l lg lp fl].
  unfold audio_on, audio_ready. cbn.
  intros (-> & (-> & -> & -> & -> & ->) & ->).
  destruct ev; cbn.
  - unfold App.handleMouseDown. cbn. destruct (leb _ _); cbn; conjuncts; reflexivity.
  - unfold handleMouseMove. cbn. destruct d; cbn; conjuncts; reflexivity.
  - unfold App.handleMouseUp, App.calculateRestPosition. cbn.
    destruct (windowDiv env); cbn; conjuncts; reflexivity.
  - unfold updateWindowCenter. destruct (windowDiv env); cbn; conjuncts; reflexivity.
  - unfold handleResize, updateWindowCenter.
    destruct (canvas env), (windowDiv env); cbn; conjuncts; reflexivity.
  - match goal with
    | |- context [App.animate env ?s0] =>
        destruct (App_animate_cases env s0)
          as [(_ & _ & e' & audio & _ & ->) | (_ & ->)]
    end; cbn; conjuncts; reflexivity.
Qed.

Lemma dispatch_audio_off (env : Env N) (ev : Event N) (s : State N) :
  audio_off s ->
  (audio_off (fst (App_dispatch env ev s)) /\
   silent (snd (App_dispatch env ev s)) = true) \/
  (is_mousedown ev = true /\ audio_on (fst (App_dispatch env ev s))).
Proof.
  destruct s as [d m c r e f ac o g l lg lp fl].
  unfold audio_off, audio_on, audio_ready. cbn.
  intros (-> & -> & -> & -> & -> & -> & ->).
  destruct ev; cbn.
  - unfold App.handleMouseDown. cbn. destruct (leb _ _); cbn.
    + right. conjuncts; reflexivity.
    + left. conjuncts; reflexivity.
  - left. unfold handleMouseMove. cbn. destruct d; cbn; conjuncts; reflexivity.
  - left. unfold App.handleMouseUp, App.calculateRestPosition. cbn.
    destruct (windowDiv env); cbn; conjuncts; reflexivity.
  - left. unfold updateWindowCenter.
    destruct (windowDiv env); cbn; conjuncts; reflexivity.
  - left. unfold handleResize, updateWindowCenter.
    destruct (canvas env), (windowDiv env); cbn; conjuncts; reflexivity.
  - left. unfold App.animate.
    destruct (canvas env), (windowDiv env); cbn; conjuncts; reflexivity.
Qed.

Lemma run_audio_on (events : list (Env N * Event N)) (s : State N) :
  audio_on s -> audio_on (fst (run events s)).
Proof.
  revert s. induction events as [| [env ev] events IH]; intros s Hon; [exact Hon |].
  cbn [run].
  pose proof (dispatch_audio_on env ev s Hon) as Hstep.
  destruct (App_dispatch env ev s) as [s1 t1]. cbn [fst] in Hstep.
  specialize (IH s1 Hstep).
  destruct (run events s1) as [s2 t2]. exact IH.
Qed.

Lemma run_audio_off (events : list (Env N * Event N)) (s : State N) :
  audio_off s ->
  ((audio_off (fst (run events s)) /\ silent (snd (run events s)) = true) \/
   audio_on (fst (run events s))) /\
  (existsb is_mousedown (map snd events) = false ->
   audio_off (fst (run events s)) /\ silent (snd (run events s)) = true).
Proof.
  revert s. induction events as [| [env ev] events IH]; intros s Hoff.
  - cbn. split; [left |]; split; [exact Hoff | reflexivity | exact Hoff | reflexivity].
  - cbn [run map snd existsb].
    pose proof (dispatch_audio_off env ev s Hoff) as Hstep.
    pose proof (fun Hon => run_audio_on events (fst (App_dispatch env ev s)) Hon) as Hon.
    destruct (App_dispatch env ev s) as [s1 t1]. cbn [fst snd] in Hstep, Hon.
    destruct Hstep as [[Hoff1 Hsil1] | [Hdown Hon1]].
    + destruct (IH s1 Hoff1) as [Hany Hnone].
      destruct (run events s1) as [s2 t2]. cbn [fst snd] in *.
      split.
      * destruct Hany as [[Hoff2 Hsil2] | Hon2]; [left | right; exact Hon2].
        split; [exact Hoff2 |]. rewrite silent_app, Hsil1, Hsil2. reflexivity.
      * intros Hnodown. apply orb_false_elim in Hnodown as [_ Hnodown].
        destruct (Hnone Hnodown) as [Hoff2 Hsil2].
        split; [exact Hoff2 |]. rewrite silent_app, Hsil1, Hsil2. reflexivity.
    + specialize (Hon Hon1).
      destruct (run events s1) as [s2 t2]. cbn [fst snd] in *.
      split; [right; exact Hon |].
      rewrite Hdown. cbn. discriminate.
Qed.
End AudioInvariant.

(** X7: in every state that pointer, scroll, resize and frame callbacks
    of [App.vue] reach from the initial one, in any order, either no audio
    handle is set, the flag is down and no call into Web Audio has been made
    so far, or the flag is up and the whole graph is in place; the flag alone therefore tells whether the five handles
    [updateAudio] tests are set.  Without a mouse down among the events the
    first case holds: frames, moves, releases, scrolls and resizes never
    start the audio.  In any arithmetic and any host. *)
Theorem no_sound_before_first_grab :
  forall (N : Type) (HN : Number N) (HT : Trig N)
         (events : list (Env N * Event N)),
    let final := fst (run events initial) in
    let trace := snd (run events initial) in
    ((audio_off final /\ silent trace = true) \/ audio_on final) /\
    (existsb is_mousedown (map snd events) = false ->
     audio_off final /\ silent trace = true) /\
    (isAudioInitialized final = true <-> audio_ready final).
Proof.
  intros N HN HT events final trace.
  assert (Hinit : audio_off (initial : State N))
    by (unfold audio_off; cbn; conjuncts; reflexivity).
  destruct (run_audio_off events initial Hinit) as [Hany Hnone].
  fold final in Hany, Hnone. fold trace in Hany, Hnone.
  conjuncts; [exact Hany | exact Hnone |].
  destruct Hany as [[(Hflag & Hctx & _) _] | (Hflag & Hready & _)].
  - split; [congruence |].
    intros (_ & _ & Hctx' & _). congruence.
  - split; intros _; assumption.
Qed.

(** ** Scroll and resize *)

(** X8: a scroll or a resize moves the window centre to the middle of the
    [.window] rectangle and touches nothing else: rope end, rest position,
    pointer, drag flag, frame id and audio handles are those it found, so the
    rest position is not projected again.  A scroll without the [.window]
    element throws and changes nothing; a resize without the canvas does
    nothing at all, the centre included.  In any arithmetic. *)
Theorem recentre_moves_centre_only :
  forall (N : Type) (HN : Number N) (env : Env N) (s : State N),
    let kept (s' : State N) :=
      isDragging s' = isDragging s /\ mousePosition s' = mousePosition s /\
      restPosition s' = restPosition s /\ currentRopeEnd s' = currentRopeEnd s /\
      animationFrameId s' = animationFrameId s /\
      audioContext s' = audioContext s /\ oscillator s' = oscillator s /\
      gainNode s' = gainNode s /\ lfo s' = lfo s /\ lfoGain s' = lfoGain s /\
      lowpassFilter s' = lowpassFilter s /\
      isAudioInitialized s' = isAudioInitialized s in
    kept (fst (updateWindowCenter env s)) /\
    kept (fst (handleResize env s)) /\
    (forall rect,
        windowDiv env = Some rect ->
        updateWindowCenter env s
        = (set_windowCenter
             (mkPoint (add (rect_left rect) (div (rect_width rect) (int 2)))
                      (add (rect_top rect) (div (rect_height rect) (int 2)))) s,
           []) /\
        (canvas env = true ->
         windowCenter (fst (handleResize env s))
         = windowCenter (fst (updateWindowCenter env s)))) /\
    (windowDiv env = None ->
     updateWindowCenter env s = (s, [Uncaught "TypeError"])) /\
    (canvas env = false -> handleResize env s = (s, [])).
Proof.
  intros N HN env s kept. unfold kept, handleResize, updateWindowCenter.
  destruct (windowDiv env) as [rect |], (canvas env); cbn; conjuncts;
    try reflexivity; try discriminate.
  all: try (intros rect' Hrect; injection Hrect as <-; split;
            [reflexivity | intros; try reflexivity; discriminate]).
  all: intros; reflexivity.
Qed.

(** ** Interpolation *)

(** X9: [lerp] starts at its first argument, ends at its second, stays
    between the two for a factor between [0] and [1], and does not move a
    value towards itself. *)
Theorem lerp_between :
  forall a b t : R,
    lerp a b (int 0) = a /\ lerp a b (int 1) = b /\ lerp a a t = a /\
    ((0 <= t <= 1)%R -> (Rmin a b <= lerp a b t <= Rmax a b)%R) /\
    (lerp a b t - b = (1 - t) * (a - b))%R.
Proof.
  intros a b t. unfold lerp. rewrite !int_R.
  change (@add R Number_R) with Rplus. change (@sub R Number_R) with Rminus.
  change (@mul R Number_R) with Rmult.
  conjuncts; try lra.
  intros Ht. unfold Rmin, Rmax. destruct (Rle_dec a b); split; nra.
Qed.

(** ** The rope at rest *)

Section AtRest.
Local Open Scope R_scope.

Lemma lerp_same (a t : R) : lerp a a t = a.
Proof.
  unfold lerp.
  change (@add R Number_R) with Rplus. change (@sub R Number_R) with Rminus.
  change (@mul R Number_R) with Rmult. lra.
Qed.

Lemma animate_at_rest (env : Env R) (s : State R) :
  isDragging s = false ->
  currentRopeEnd s = restPosition s ->
  let s' := fst (App.animate env s) in
  currentRopeEnd s' = currentRopeEnd s /\ restPosition s' = restPosition s /\
  isDragging s' = false.
Proof.
  intros Hdrag Hrest. cbv zeta.
  destruct (canvas env) eqn:Hcanvas, (windowDiv env) as [rect |] eqn:Hwin.
  - assert (Hready : surfaces_ready env) by (split; [exact Hcanvas | congruence]).
    destruct (animate_settling Hready Hdrag) as (Hend & Hr & Hd).
    conjuncts; [| exact Hr | exact Hd].
    rewrite Hend, <- Hrest, !lerp_same. destruct (currentRopeEnd s); reflexivity.
  - unfold App.animate. rewrite Hcanvas, Hwin. cbn.
    conjuncts; [reflexivity | reflexivity | exact Hdrag].
  - unfold App.animate. rewrite Hcanvas. cbn.
    conjuncts; [reflexivity | reflexivity | exact Hdrag].
  - unfold App.animate. rewrite Hcanvas. cbn.
    conjuncts; [reflexivity | reflexivity | exact Hdrag].
Qed.

Lemma ticks_at_rest (envs : list (Env R)) (s : State R) :
  isDragging s = false ->
  currentRopeEnd s = restPosition s ->
  currentRopeEnd (ticks envs s) = currentRopeEnd s.
Proof.
  revert s. induction envs as [| env envs IH]; intros s Hdrag Hrest; [reflexivity |].
  cbn [ticks].
  destruct (animate_at_rest env s Hdrag Hrest) as (Hend & Hr & Hd).
  rewrite IH; [exact Hend | exact Hd | rewrite Hend, Hr; exact Hrest].
Qed.
End AtRest.

(** ** Mounting *)

Section Mounting.
Context {N : Type} `{Number N} `{Trig N}.

Lemma registered_app (t u : list (ShellCall N)) :
  registered (t ++ u) = registered t ++ registered u.
Proof.
  induction t as [| c t IH]; [reflexivity |].
  destruct c; cbn; rewrite ?IH; reflexivity.
Qed.

Lemma registered_host (t : list (Call N)) : registered (map host t) = [].
Proof. induction t as [| c t IH]; [reflexivity | exact IH]. Qed.

Lemma onMounted_registered
    (animate : Env N -> State N -> State N * list (Call N))
    (env : Env N) (s : State N) :
  registered (snd (onMounted animate env s))
  = ["mousedown"; "mousemove"; "mouseup"; "scroll"; "resize"]%string.
Proof.
  unfold onMounted.
  destruct (windowDiv env) as [rect |], (canvas env);
    try destruct (updateWindowCenter env s) as [s0 t0];
    match goal with |- context [animate env ?s1] => destruct (animate env s1) end;
    cbn [snd]; rewrite ?registered_app; cbn [registered];
    rewrite ?registered_app, ?registered_host; reflexivity.
Qed.

Lemma App_animate_windowCenter (env : Env N) (s : State N) :
  windowCenter (fst (App.animate env s)) = windowCenter s.
Proof.
  destruct (App_animate_cases env s)
    as [(_ & _ & e & audio & _ & ->) | (_ & ->)]; reflexivity.
Qed.
End Mounting.

(** X10: whatever the host and the state, mounting registers listeners for
    exactly the five event types that the teardown of [App.vue] removes, in
    the same order; the teardown of the other copy removes none of the five
    its mounting registers. *)
Theorem listeners_registered_and_removed :
  forall (N : Type) (HN : Number N) (HT : Trig N)
         (env : Env N) (s s' : State N),
    registered (snd (onMounted App.animate env s))
    = ["mousedown"; "mousemove"; "mouseup"; "scroll"; "resize"]%string /\
    removed (snd (App.onUnmounted s'))
    = registered (snd (onMounted App.animate env s)) /\
    registered (snd (onMounted Part000.animate env s))
    = ["mousedown"; "mousemove"; "mouseup"; "scroll"; "resize"]%string /\
    removed (snd (Part000.onUnmounted s')) = [].
Proof.
  intros N HN HT env s s'. rewrite !onMounted_registered.
  conjuncts; try reflexivity.
  - unfold App.onUnmounted. cbn [snd].
    destruct (animationFrameId s'), (oscillator s'), (audioContext s'), (lfo s');
      reflexivity.
  - unfold Part000.onUnmounted. cbn [snd].
    destruct (animationFrameId s'), (oscillator s'), (audioContext s');
      reflexivity.
Qed.

(** X11: mounted with canvas and [.window] element in place and no drag on,
    the script centres on the rectangle and puts rope end and rest position
    at the same point, [20] under the bottom edge and level with the centre
    horizontally: the rope hangs straight down, at angle [0] and length
    [height / 2 + 20], and no later frame moves the rope end.  Over the
    reals, for a rectangle with [0 < height / 2 + 20]. *)
Theorem mount_hangs_straight_down :
  forall (env : Env R) (s : State R) (rect : DOMRect R),
    canvas env = true ->
    windowDiv env = Some rect ->
    isDragging s = false ->
    (0 < rect_height rect / 2 + 20)%R ->
    let s' := fst (onMounted App.animate env s) in
    let cx := (rect_left rect + rect_width rect / 2)%R in
    let cy := (rect_top rect + rect_height rect / 2)%R in
    windowCenter s' = mkPoint cx cy /\
    currentRopeEnd s' = mkPoint cx (rect_top rect + rect_height rect + 20)%R /\
    restPosition s' = currentRopeEnd s' /\
    calculateAngle cx cy (x (currentRopeEnd s')) (y (currentRopeEnd s')) = 0%R /\
    calculateRopeLength cx cy (x (currentRopeEnd s')) (y (currentRopeEnd s'))
    = (rect_height rect / 2 + 20)%R /\
    (forall envs : list (Env R),
        currentRopeEnd (ticks envs s') = currentRopeEnd s').
Proof.
  intros env s rect Hcanvas Hwin Hdrag Hlen s' cx cy.
  set (p := mkPoint cx (rect_top rect + rect_height rect + 20)%R).
  set (s1 := set_restPosition p (set_currentRopeEnd p (set_windowCenter (mkPoint cx cy) s))).
  assert (Hs' : s' = fst (App.animate env s1)).
  { unfold s', onMounted, updateWindowCenter. rewrite Hwin, Hcanvas.
    unfold rect_bottom. rewrite !int_R.
    change (@add R Number_R) with Rplus. change (@div R Number_R) with Rdiv.
    fold cx cy. fold p. fold s1.
    destruct (App.animate env s1). reflexivity. }
  assert (Hd1 : isDragging s1 = false) by exact Hdrag.
  assert (Hr1 : currentRopeEnd s1 = restPosition s1) by reflexivity.
  destruct (animate_at_rest env s1 Hd1 Hr1) as (Hend & Hrest & Hdrag').
  rewrite <- Hs' in Hend, Hrest, Hdrag'.
  assert (Hend' : currentRopeEnd s' = p) by (rewrite Hend; reflexivity).
  assert (Hrest' : restPosition s' = p) by (rewrite Hrest; reflexivity).
  conjuncts.
  - rewrite Hs', App_animate_windowCenter. reflexivity.
  - exact Hend'.
  - rewrite Hend', Hrest'. reflexivity.
  - rewrite Hend'. cbn [x y p]. unfold calculateAngle.
    change (@sub R Number_R) with Rminus. cbv zeta.
    change (@Math_atan2 R Trig_R) with Ratan2. unfold Ratan2.
    replace (cx - cx)%R with 0%R by lra.
    destruct (Rlt_dec 0 (rect_top rect + rect_height rect + 20 - cy)) as [_ | Hn].
    + unfold Rdiv. rewrite Rmult_0_l. apply atan_0.
    + exfalso. apply Hn. unfold cy. lra.
  - rewrite Hend'. cbn [x y p]. rewrite calculateRopeLength_R.
    replace ((cx - cx) ^ 2 + (rect_top rect + rect_height rect + 20 - cy) ^ 2)%R
      with ((rect_height rect / 2 + 20) * (rect_height rect / 2 + 20))%R
      by (unfold cy; field).
    apply sqrt_square. lra.
  - intros envs. apply ticks_at_rest; [exact Hdrag' |].
    rewrite Hend', Hrest'. reflexivity.
Qed.

(** Mounting on the 200 by 200 window centred on (500, 500). *)
Lemma mount_hangs_straight_down_sample :
  let s' := fst (onMounted App.animate (sample_env : Env R) initial) in
  calculateRopeLength (400 + 200 / 2)%R (400 + 200 / 2)%R
    (x (currentRopeEnd s')) (y (currentRopeEnd s'))
  = (200 / 2 + 20)%R.
Proof.
  intros s'.
  assert (Hrect : windowDiv (sample_env : Env R) = Some (mkRect 400 400 200 200)%R).
  { unfold sample_env, sample_env_with. cbn [windowDiv]. rewrite !int_R. reflexivity. }
  pose proof (mount_hangs_straight_down (sample_env : Env R) initial
                (mkRect 400 400 200 200)%R
                (eq_refl : canvas (sample_env : Env R) = true) Hrect
                (eq_refl : isDragging (initial : State R) = false)) as Hmount.
  cbn [rect_left rect_top rect_width rect_height] in Hmount.
  assert (Hpos : (0 < 200 / 2 + 20)%R) by lra.
  exact (proj1 (proj2 (proj2 (proj2 (proj2 (Hmount Hpos)))))).
Defined.

(** ** From the angle to the base frequency *)

Lemma normalizedAngle_range (a : R) :
  (- PI < a <= PI)%R -> (0 < (a + PI) / (2 * PI) <= 1)%R.
Proof.
  intros Ha. pose proof PI_RGT_0 as Hpi.
  split.
  - apply Rdiv_lt_0_compat; lra.
  - apply Rmult_le_reg_r with (2 * PI)%R; [lra |].
    replace ((a + PI) / (2 * PI) * (2 * PI))%R with (a + PI)%R by (field; lra).
    lra.
Qed.

Lemma App_baseFrequency_R (a : R) :
  App.baseFrequency a = (110 + (a + PI) / (2 * PI) * 770)%R.
Proof.
  unfold App.baseFrequency, App.normalizedAngle. js_R.
  pose proof PI_neq0. field. assumption.
Qed.

Lemma Part000_baseFrequency_R (a : R) :
  Part000.baseFrequency a = (200 + (a + PI) / (2 * PI) * 600)%R.
Proof.
  unfold Part000.baseFrequency, Part000.normalizedAngle. js_R.
  pose proof PI_neq0. field. assumption.
Qed.

(** X12: whatever the window centre and the rope end, the base frequency
    [updateAudio] derives from the angle lies above [110] and at most at
    [880] in [App.vue], the range the scale spans, and above [200] and at
    most at [800] in the other copy; a rope pointing straight up gives the
    top of the range, one hanging straight down its middle. *)
Theorem base_frequency_range :
  forall x1 y1 x2 y2 : R,
    let angle := calculateAngle x1 y1 x2 y2 in
    (110 < App.baseFrequency angle <= 880)%R /\
    (200 < Part000.baseFrequency angle <= 800)%R /\
    (forall d : R, (0 < d)%R ->
       App.baseFrequency (calculateAngle x1 y1 x1 (y1 - d)%R) = 880%R /\
       App.baseFrequency (calculateAngle x1 y1 x1 (y1 + d)%R) = 495%R).
Proof.
  intros x1 y1 x2 y2 angle.
  assert (Hrange : (- PI < angle <= PI)%R) by apply Ratan2_range.
  apply normalizedAngle_range in Hrange.
  pose proof PI_RGT_0 as Hpi.
  rewrite App_baseFrequency_R, Part000_baseFrequency_R.
  conjuncts; try nra.
  intros d Hd. rewrite !App_baseFrequency_R.
  unfold calculateAngle. cbv zeta.
  change (@sub R Number_R) with Rminus. change (@add R Number_R) with Rplus.
  change (@Math_atan2 R Trig_R) with Ratan2. unfold Ratan2.
  replace (x1 - x1)%R with 0%R by lra.
  replace (0 / (y1 - d - y1))%R with 0%R by (field; lra).
  replace (0 / (y1 + d - y1))%R with 0%R by (field; lra).
  rewrite atan_0.
  destruct (Rlt_dec 0 (y1 - d - y1)) as [Habs | _]; [lra |].
  destruct (Rlt_dec (y1 - d - y1) 0) as [_ | Habs]; [| lra].
  destruct (Rle_dec 0 0) as [_ | Habs]; [| lra].
  destruct (Rlt_dec 0 (y1 + d - y1)) as [_ | Habs]; [| lra].
  split; field; lra.
Qed.

(** ** Longer rope, more of everything *)

Lemma normalizedLength_mono (len1 len2 : R) :
  (len1 <= len2)%R ->
  (Rmin ((len1 - 150) / 350) 1 <= Rmin ((len2 - 150) / 350) 1)%R.
Proof. intros Hle. apply Rle_min_compat_r. lra. Qed.

Lemma App_lfoFrequency_R (len : R) :
  App.lfoFrequency len = (1 / 10 + Rmin ((len - 150) / 350) 1 * (15 - 1 / 10))%R.
Proof.
  unfold App.lfoFrequency, App.PARAMETERS_minLFOFreq, App.PARAMETERS_maxLFOFreq.
  rewrite normalizedLength_R. js_R. lra.
Qed.

Lemma App_cutoffFrequency_R (len : R) :
  App.cutoffFrequency len = (Rmin ((len - 150) / 350) 1 * 5000)%R.
Proof. unfold App.cutoffFrequency. rewrite normalizedLength_R. js_R. lra. Qed.

Lemma App_newSize_R (len : R) :
  App.newSize len = (200 + Rmin ((len - 150) / 350) 1 * 300)%R.
Proof. unfold App.newSize. rewrite normalizedLength_R. js_R. lra. Qed.

Lemma Part000_lfoFrequency_R (len : R) :
  Part000.lfoFrequency len
  = (5 / 10 + Rmin ((len - 150) / 350) 1 * (5 - 5 / 10) * 20)%R.
Proof.
  unfold Part000.lfoFrequency. rewrite normalizedRopeLength_R. js_R. lra.
Qed.

Lemma gain_mono (cap len1 len2 : R) :
  (0 < cap)%R -> (len1 <= len2)%R ->
  ((if Rltb 150 len1 then Rmin ((len1 - 150) / 350) 1 * cap else 0)
   <= (if Rltb 150 len2 then Rmin ((len2 - 150) / 350) 1 * cap else 0))%R.
Proof.
  intros Hcap Hle.
  pose proof (normalizedLength_mono len1 len2 Hle) as Hmono.
  destruct (Rlt_dec 150 len1) as [H1 | H1], (Rlt_dec 150 len2) as [H2 | H2];
    rewrite ?(Rltb_true _ _ H1), ?(Rltb_true _ _ H2);
    rewrite ?(Rltb_false 150 len1) by lra; rewrite ?(Rltb_false 150 len2) by lra.
  - nra.
  - lra.
  - assert (0 < Rmin ((len2 - 150) / 350) 1)%R by (apply Rmin_glb_lt; lra). nra.
  - lra.
Qed.

(** X13: a longer rope never lowers an output: modulation rate, filter
    cutoff, window size and gain target of [App.vue], and modulation rate and
    gain target of the other copy, are all non-decreasing in the rope length.
    From length [500] on they stay at [15], [5000], [500] and [0.4], and in
    the other copy at [90.5] and [0.75]. *)
Theorem outputs_monotone_in_length :
  forall len1 len2 : R,
    (len1 <= len2)%R ->
    (App.lfoFrequency len1 <= App.lfoFrequency len2 /\
     App.cutoffFrequency len1 <= App.cutoffFrequency len2 /\
     App.newSize len1 <= App.newSize len2 /\
     App.targetGain len1 <= App.targetGain len2 /\
     Part000.lfoFrequency len1 <= Part000.lfoFrequency len2 /\
     Part000.targetGain len1 <= Part000.targetGain len2)%R /\
    ((500 <= len1)%R ->
     App.lfoFrequency len1 = 15%R /\ App.cutoffFrequency len1 = 5000%R /\
     App.newSize len1 = 500%R /\ App.targetGain len1 = (4 / 10)%R /\
     Part000.lfoFrequency len1 = (905 / 10)%R /\
     Part000.targetGain len1 = (75 / 100)%R).
Proof.
  intros len1 len2 Hle.
  pose proof (normalizedLength_mono len1 len2 Hle) as Hmono.
  rewrite !App_lfoFrequency_R, !App_cutoffFrequency_R, !App_newSize_R,
    !App_targetGain_R, !Part000_lfoFrequency_R, !Part000_targetGain_R.
  conjuncts; try nra.
  - apply gain_mono; lra.
  - apply gain_mono; lra.
  - intros Hlong.
    rewrite Rltb_true by lra.
    rewrite (Rmin_right ((len1 - 150) / 350) 1) by lra.
    conjuncts; lra.
Qed.

(** Lengths [200] and [300]. *)
Lemma outputs_monotone_200_300 :
  (App.lfoFrequency 200%R <= App.lfoFrequency 300%R)%R /\
  (App.targetGain 200%R <= App.targetGain 300%R)%R.
Proof.
  assert (Hle : (200 <= 300)%R) by lra.
  destruct (outputs_monotone_in_length 200 300 Hle) as [(Hlfo & _ & _ & Hgain & _) _].
  split; assumption.
Defined.

(** ** Snapping, again *)

Lemma findClosest_fixes_member (r : R) :
  In r App.PENTATONIC_FREQUENCIES ->
  App.findClosestPentatonicFrequency r = Some r.
Proof.
  intros Hin.
  destruct (findClosest_R r) as (r' & Hr' & _ & _ & Hmin & _).
  rewrite Hr'. f_equal.
  specialize (Hmin r Hin). clear Hr' Hin. Rabs_lra.
Qed.

(** X14: a frequency of the scale snaps to itself, so snapping twice is
    snapping once. *)
Theorem snapping_idempotent :
  forall freq : R,
    exists r,
      App.findClosestPentatonicFrequency freq = Some r /\
      App.findClosestPentatonicFrequency r = Some r /\
      (In freq App.PENTATONIC_FREQUENCIES -> r = freq).
Proof.
  intros freq.
  destruct (findClosest_R freq) as (r & Hr & Hin & _).
  exists r. conjuncts; [exact Hr | apply findClosest_fixes_member, Hin |].
  intros Hfreq. rewrite (findClosest_fixes_member freq Hfreq) in Hr.
  injection Hr as <-. reflexivity.
Qed.

(** X15: snapping keeps the order of frequencies: a higher input never snaps
    to a lower scale member. *)
Theorem snapping_monotone :
  forall f1 f2 : R,
    (f1 <= f2)%R ->
    exists r1 r2,
      App.findClosestPentatonicFrequency f1 = Some r1 /\
      App.findClosestPentatonicFrequency f2 = Some r2 /\
      (r1 <= r2)%R.
Proof.
  intros f1 f2 Hle.
  destruct (findClosest_R f1) as (r1 & Hr1 & Hin1 & _ & Hmin1 & Hlow1).
  destruct (findClosest_R f2) as (r2 & Hr2 & Hin2 & _ & Hmin2 & _).
  exists r1, r2. conjuncts; [exact Hr1 | exact Hr2 |].
  destruct (Rle_dec r1 r2) as [Hdone | Hgt]; [exact Hdone |].
  exfalso.
  specialize (Hmin1 r2 Hin2). specialize (Hmin2 r1 Hin1).
  specialize (Hlow1 r2 Hin2).
  assert (Htie : Rabs (r2 - f1) = Rabs (r1 - f1)).
  { clear Hlow1 Hr1 Hr2 Hin1 Hin2. Rabs_lra. }
  specialize (Hlow1 Htie). lra.
Qed.

(** Inputs [115] and [650]. *)
Lemma snapping_monotone_115_650 :
  exists r1 r2,
    App.findClosestPentatonicFrequency 115%R = Some r1 /\
    App.findClosestPentatonicFrequency 650%R = Some r2 /\
    (r1 <= r2)%R.
Proof.
  apply (snapping_monotone 115 650). lra.
Defined.

(** ** The rest position, again *)

Lemma Part000_calculateRestPosition_R
    (env : Env R) (s : State R) (rect : DOMRect R) (mx my : R) :
  windowDiv env = Some rect ->
  Part000.calculateRestPosition env s mx my
  = let dx := (mx - x (windowCenter s))%R in
    let dy := (my - y (windowCenter s))%R in
    let d := sqrt (dx * dx + dy * dy) in
    Some (mkPoint (x (windowCenter s) + dx / d * (rect_width rect / 2 + 20))%R
                  (y (windowCenter s) + dy / d * (rect_width rect / 2 + 20))%R).
Proof.
  intros Hwin. unfold Part000.calculateRestPosition. rewrite Hwin.
  js_R. cbv zeta. do 2 f_equal; f_equal; f_equal; lra.
Qed.

Lemma direction_scaled (dx dy k : R) :
  (dx <> 0 \/ dy <> 0)%R -> (0 < k)%R ->
  (k * dx / sqrt (k * dx * (k * dx) + k * dy * (k * dy))
   = dx / sqrt (dx * dx + dy * dy))%R.
Proof.
  intros Hnz Hk.
  pose proof (norm_pos Hnz) as Hd.
  replace (k * dx * (k * dx) + k * dy * (k * dy))%R
    with (k * k * (dx * dx + dy * dy))%R by ring.
  rewrite sqrt_mult_alt by nra.
  rewrite sqrt_square by lra.
  field. split; lra.
Qed.

(** X16: the rest position depends on the direction of the pointer from the
    window centre and not on how far the pointer is: moving the pointer
    along its ray from the centre gives the same rest position, in both
    copies.  In the copy that takes the radius from the layout the rest
    position is at distance [width / 2 + 20] from the centre, for a
    rectangle with [0 <= width / 2 + 20]. *)
Theorem rest_position_from_direction :
  forall (env : Env R) (s : State R) (rect : DOMRect R) (mx my k : R),
    windowDiv env = Some rect ->
    (mx - x (windowCenter s) <> 0 \/ my - y (windowCenter s) <> 0)%R ->
    (0 < k)%R ->
    let cx := x (windowCenter s) in
    let cy := y (windowCenter s) in
    App.calculateRestPosition env s (cx + k * (mx - cx))%R (cy + k * (my - cy))%R
    = App.calculateRestPosition env s mx my /\
    Part000.calculateRestPosition env s (cx + k * (mx - cx))%R (cy + k * (my - cy))%R
    = Part000.calculateRestPosition env s mx my /\
    ((0 <= rect_width rect / 2 + 20)%R ->
     exists p,
       Part000.calculateRestPosition env s mx my = Some p /\
       calculateRopeLength cx cy (x p) (y p) = (rect_width rect / 2 + 20)%R).
Proof.
  intros env s rect mx my k Hwin Hnz Hk cx cy.
  assert (Hwin' : windowDiv env <> None) by congruence.
  rewrite !(App_calculateRestPosition_R _ _ _ _ Hwin').
  rewrite !(Part000_calculateRestPosition_R _ _ _ _ _ Hwin).
  cbv zeta. fold cx cy.
  replace (cx + k * (mx - cx) - cx)%R with (k * (mx - cx))%R by ring.
  replace (cy + k * (my - cy) - cy)%R with (k * (my - cy))%R by ring.
  pose proof (direction_scaled _ _ _ Hnz Hk) as Hx.
  assert (Hnz' : (my - cy <> 0 \/ mx - cx <> 0)%R) by tauto.
  pose proof (direction_scaled _ _ _ Hnz' Hk) as Hy.
  replace (k * (my - cy) * (k * (my - cy)) + k * (mx - cx) * (k * (mx - cx)))%R
    with (k * (mx - cx) * (k * (mx - cx)) + k * (my - cy) * (k * (my - cy)))%R
    in Hy by ring.
  replace ((my - cy) * (my - cy) + (mx - cx) * (mx - cx))%R
    with ((mx - cx) * (mx - cx) + (my - cy) * (my - cy))%R in Hy by ring.
  fold cx cy in Hx, Hy. rewrite Hx, Hy.
  conjuncts; try reflexivity.
  intros Hrad. eexists. split; [reflexivity |].
  cbn [x y]. rewrite calculateRopeLength_R.
  match goal with
  | |- sqrt ((cx + ?a - cx) ^ 2 + (cy + ?b - cy) ^ 2) = _ =>
      replace (cx + a - cx)%R with a by ring;
      replace (cy + b - cy)%R with b by ring
  end.
  apply (scaled_norm Hnz Hrad).
Qed.

(** The pointer at (600, 500) and twice as far, at (700, 500). *)
Lemma rest_position_from_direction_sample :
  App.calculateRestPosition (sample_env : Env R)
    (idle (at_ 500 500) (at_ 600 500) (at_ 600 500) (at_ 500 620))
    (int 500 + 2 * (600 - int 500))%R (int 500 + 2 * (500 - int 500))%R
  = App.calculateRestPosition (sample_env : Env R)
      (idle (at_ 500 500) (at_ 600 500) (at_ 600 500) (at_ 500 620))
      600%R 500%R.
Proof.
  refine (proj1 (rest_position_from_direction (sample_env : Env R)
                   (idle (at_ 500 500) (at_ 600 500) (at_ 600 500) (at_ 500 620))
                   (mkRect (int 400) (int 400) (int 200) (int 200))
                   600 500 2 eq_refl _ _)).
  - left. cbn [idle windowCenter at_ x]. rewrite int_R. lra.
  - lra.
Defined.

(** ** What a frame sends while the audio is on *)

Section FrameAudio.
Context {N : Type} `{Number N} `{Trig N}.

End FrameAudio.





(** ** Length and angle determine the rope end *)

Section Polar.
Local Open Scope R_scope.

Lemma norm_factor (dx dy : R) :
  dy <> 0 ->
  sqrt (dx ^ 2 + dy ^ 2) = Rabs dy * sqrt (1 + (dx / dy)²).
Proof.
  intros Hdy.
  replace (dx ^ 2 + dy ^ 2) with (dy² * (1 + (dx / dy)²))
    by (unfold Rsqr; field; exact Hdy).
  rewrite sqrt_mult_alt by apply Rle_0_sqr.
  rewrite sqrt_Rsqr_abs. reflexivity.
Qed.

Lemma root_pos (t : R) : 0 < sqrt (1 + t²).
Proof. apply sqrt_lt_R0. pose proof (Rle_0_sqr t). lra. Qed.

Lemma polar_of_atan (dx dy : R) :
  dy <> 0 ->
  Rabs dy * sqrt (1 + (dx / dy)²) * sin (atan (dx / dy)) = Rabs dy * (dx / dy) /\
  Rabs dy * sqrt (1 + (dx / dy)²) * cos (atan (dx / dy)) = Rabs dy.
Proof.
  intros Hdy. pose proof (root_pos (dx / dy)) as Hroot.
  rewrite sin_atan, cos_atan. split; field; lra.
Qed.

Lemma polar_Ratan2 (dx dy : R) :
  sqrt (dx ^ 2 + dy ^ 2) * sin (Ratan2 dx dy) = dx /\
  sqrt (dx ^ 2 + dy ^ 2) * cos (Ratan2 dx dy) = dy.
Proof.
  unfold Ratan2.
  destruct (Rlt_dec 0 dy) as [Hpos | Hnpos].
  - assert (Hdy : dy <> 0) by lra.
    destruct (polar_of_atan dx dy Hdy) as [Hs Hc].
    rewrite (norm_factor dx dy Hdy), Hs, Hc, Rabs_pos_eq by lra.
    split; [field; lra | reflexivity].
  - destruct (Rlt_dec dy 0) as [Hneg | Hnneg].
    + assert (Hdy : dy <> 0) by lra.
      destruct (polar_of_atan dx dy Hdy) as [Hs Hc].
      rewrite (norm_factor dx dy Hdy).
      rewrite (Rabs_left dy Hneg) in *.
      destruct (Rle_dec 0 dx) as [Hdx | Hdx].
      * rewrite neg_sin, neg_cos. split.
        -- replace (- dy * sqrt (1 + (dx / dy)²) * - sin (atan (dx / dy)))
             with (- (- dy * sqrt (1 + (dx / dy)²) * sin (atan (dx / dy)))) by ring.
           rewrite Hs. field. lra.
        -- replace (- dy * sqrt (1 + (dx / dy)²) * - cos (atan (dx / dy)))
             with (- (- dy * sqrt (1 + (dx / dy)²) * cos (atan (dx / dy)))) by ring.
           rewrite Hc. ring.
      * rewrite sin_minus, cos_minus, sin_PI, cos_PI. split.
        -- replace (- dy * sqrt (1 + (dx / dy)²)
                    * (sin (atan (dx / dy)) * -1 - cos (atan (dx / dy)) * 0))
             with (- (- dy * sqrt (1 + (dx / dy)²) * sin (atan (dx / dy)))) by ring.
           rewrite Hs. field. lra.
        -- replace (- dy * sqrt (1 + (dx / dy)²)
                    * (cos (atan (dx / dy)) * -1 + sin (atan (dx / dy)) * 0))
             with (- (- dy * sqrt (1 + (dx / dy)²) * cos (atan (dx / dy)))) by ring.
           rewrite Hc. ring.
    + assert (Hdy : dy = 0) by lra. subst dy.
      replace (dx ^ 2 + 0 ^ 2) with (dx²) by (unfold Rsqr; ring).
      rewrite sqrt_Rsqr_abs.
      destruct (Rlt_dec 0 dx) as [Hdx | Hdx].
      * rewrite sin_PI2, cos_PI2, Rabs_pos_eq by lra. split; ring.
      * destruct (Rlt_dec dx 0) as [Hdx' | Hdx'].
        -- rewrite sin_neg, cos_neg, sin_PI2, cos_PI2, (Rabs_left dx Hdx').
           split; ring.
        -- assert (Hzero : dx = 0) by lra. subst dx.
           rewrite Rabs_R0. split; ring.
Qed.
End Polar.

(** X19: length and angle are the polar coordinates of the rope end around
    the window centre, the angle counted from the downward vertical: the
    rope end is the centre plus [length * sin angle] across and
    [length * cos angle] down, for every pair of points. *)
Theorem rope_end_from_length_and_angle :
  forall cx cy ex ey : R,
    let len := calculateRopeLength cx cy ex ey in
    let angle := calculateAngle cx cy ex ey in
    ex = (cx + len * sin angle)%R /\ ey = (cy + len * cos angle)%R.
Proof.
  intros cx cy ex ey len angle.
  unfold len, angle. rewrite calculateRopeLength_R.
  change (calculateAngle cx cy ex ey) with (Ratan2 (ex - cx) (ey - cy)).
  destruct (polar_Ratan2 (ex - cx) (ey - cy)) as [-> ->]. split; ring.
Qed.

(** ** Rope length as a distance *)

Lemma norm_triangle (a b c d : R) :
  (sqrt ((a + c) ^ 2 + (b + d) ^ 2)
   <= sqrt (a ^ 2 + b ^ 2) + sqrt (c ^ 2 + d ^ 2))%R.
Proof.
  set (u := sqrt (a ^ 2 + b ^ 2)). set (v := sqrt (c ^ 2 + d ^ 2)).
  assert (Hu : (0 <= u)%R) by apply sqrt_pos.
  assert (Hv : (0 <= v)%R) by apply sqrt_pos.
  assert (Hu2 : (u * u = a ^ 2 + b ^ 2)%R) by (apply sqrt_sqrt; nra).
  assert (Hv2 : (v * v = c ^ 2 + d ^ 2)%R) by (apply sqrt_sqrt; nra).
  assert (Hcs : (a * c + b * d <= u * v)%R).
  { assert (Huv : (0 <= u * v)%R) by (apply Rmult_le_pos; assumption).
    destruct (Rle_dec (a * c + b * d) 0) as [Hneg | Hpos]; [lra |].
    apply Rnot_lt_le. intros Hlt.
    assert (Hsq : ((u * v) * (u * v) < (a * c + b * d) * (a * c + b * d))%R)
      by (apply Rmult_le_0_lt_compat; assumption).
    replace ((u * v) * (u * v))%R with ((u * u) * (v * v))%R in Hsq by ring.
    rewrite Hu2, Hv2 in Hsq.
    pose proof (Rle_0_sqr (a * d - b * c)) as Hdet. unfold Rsqr in Hdet. nra. }
  rewrite <- (sqrt_square (u + v)) by lra.
  apply sqrt_le_1_alt. nra.
Qed.

Lemma sq_sum_zero (a b : R) : (a ^ 2 + b ^ 2 = 0 -> a = 0 /\ b = 0)%R.
Proof.
  intros Hsum.
  replace (a ^ 2 + b ^ 2)%R with (Rsqr a + Rsqr b)%R in Hsum by (unfold Rsqr; ring).
  pose proof (Rle_0_sqr a). pose proof (Rle_0_sqr b).
  split; apply Rsqr_0_uniq; lra.
Qed.

Lemma sq_sum_nonneg (a b : R) : (0 <= a ^ 2 + b ^ 2)%R.
Proof.
  replace (a ^ 2 + b ^ 2)%R with (Rsqr a + Rsqr b)%R by (unfold Rsqr; ring).
  pose proof (Rle_0_sqr a). pose proof (Rle_0_sqr b). lra.
Qed.

(** X20: the rope length is a distance: the same in both directions, [0]
    exactly between a point and itself, and never longer than a detour
    through a third point. *)
Theorem rope_length_is_a_distance :
  forall x1 y1 x2 y2 x3 y3 : R,
    calculateRopeLength x1 y1 x2 y2 = calculateRopeLength x2 y2 x1 y1 /\
    (calculateRopeLength x1 y1 x2 y2 = 0%R <-> x1 = x2 /\ y1 = y2) /\
    (calculateRopeLength x1 y1 x3 y3
     <= calculateRopeLength x1 y1 x2 y2 + calculateRopeLength x2 y2 x3 y3)%R.
Proof.
  intros x1 y1 x2 y2 x3 y3. rewrite !calculateRopeLength_R. conjuncts.
  - f_equal. ring.
  - split.
    + intros Hzero. apply sqrt_eq_0 in Hzero; [| apply sq_sum_nonneg].
      apply sq_sum_zero in Hzero. split; lra.
    + intros [-> ->].
      replace ((x2 - x2) ^ 2 + (y2 - y2) ^ 2)%R with 0%R by ring.
      apply sqrt_0.
  - replace (x3 - x1)%R with ((x2 - x1) + (x3 - x2))%R by ring.
    replace (y3 - y1)%R with ((y2 - y1) + (y3 - y2))%R by ring.
    apply norm_triangle.
Qed.

(** ** Teardown of the other copy *)

(** X21: whatever the state, the teardown of the copy that reads the
    undeclared [lfoOscillator] ends in an uncaught exception after it has
    cancelled the frame, stopped the oscillator and closed the context: it
    never stops the modulation source and never removes a listener. *)
Theorem part000_teardown_throws :
  forall (N : Type) (HN : Number N) (s : State N),
    throws (snd (Part000.onUnmounted s)) = true /\
    releases (snd (Part000.onUnmounted s))
    = match animationFrameId s with
      | Some id => [cancelAnimationFrame id]
      | None => []
      end
      ++ when_set (oscillator s) [oscillator_stop]
      ++ when_set (audioContext s) [audioContext_close] /\
    ~ In lfo_stop (snd (Part000.onUnmounted s)) /\
    removed (snd (Part000.onUnmounted s)) = [] /\
    fst (Part000.onUnmounted s) = s.
Proof.
  intros N HN s. unfold Part000.onUnmounted. cbn [fst snd].
  destruct (animationFrameId s), (oscillator s), (audioContext s);
    cbn; conjuncts; try reflexivity; intuition discriminate.
Qed.
